(** * Table recovery in [import_state_info]

    A shallow embedding of the scraper of
    [miniprojects/html_scraping/emergency_room_html_scraping.ipynb] and
    the properties of its table-recovery logic.

    The two xpath queries are the boundary of the model: the function
    below receives the [text_content()] of every [<span>] element and of
    every [<a>] element, in document order, and does from there what the
    notebook does.

    - A Python [str] is the Rocq string of the bytes of its UTF-8
      encoding, so that the text of a page is any Unicode text.
      [str.split] at [':'] and at [' '] cuts the bytes where Python
      cuts the characters; [int] decodes the bytes and reads the white
      space and the decimal digits of all scripts.  The interpreter is
      the CPython 3.7.6 of the notebook: its tables are those of
      Unicode 11.0 (later interpreters know the digits of a few more
      scripts) and [int] sets no limit to the number of digits.
    - numpy is the 1.18.1 the notebook pins: [np.array] of lists of one
      length is a 2-D array, of lists of several lengths a 1-D array of
      objects, and the two do not compare alike ([Np.layout]).
    - Minute counts are Python integers, hence [Z].  The two columns
      numpy makes of them are int64 as long as every count is in the
      range of int64 (C long of 64 bits); a count beyond it turns a
      column into uint64, float64 or object, and the frame holds the
      counts as [Np.array] and [Np.concatenate] convert them, rounded to
      the nearest double where the dtype is float64.
    - [import_state_info] is the function as a value of its inputs;
      [Store.import_state_info] is the same body with the Python objects
      it creates and mutates in an explicit store, and [run_spec] relates
      the two. *)

From Stdlib Require Import ZArith Lia String Ascii.
From stdpp Require Import base tactics option list strings sorting.

(** ** Python: exceptions, indexing, [str.split], [int] *)

Module Py.

(** The two exception classes the function can meet. *)
Inductive exn : Type := IndexError | ValueError.

Inductive result (A : Type) : Type :=
| Return (a : A)
| Raise (e : exn).
Arguments Return {A} a.
Arguments Raise {A} e.

#[global] Instance result_ret : MRet result := fun A a => Return a.

#[global] Instance result_bind : MBind result := fun A B k m =>
  match m with
  | Return a => k a
  | Raise e => Raise e
  end.

(** [try: body except (IndexError, ValueError): handler]; both classes
    of the model are listed in the clause, so every failure of the body
    runs the handler. *)
Definition try_except {A} (body : result A) (handler : result A) : result A :=
  match body with
  | Return a => Return a
  | Raise IndexError | Raise ValueError => handler
  end.

(** [l[i]] for [i >= 0] on a list or on the first axis of an array. *)
Definition getitem {A} (l : list A) (i : nat) : result A :=
  match l !! i with
  | Some a => Return a
  | None => Raise IndexError
  end.

(** [l[i:j]] for [0 <= i], [0 <= j]. *)
Definition slice {A} (l : list A) (i j : nat) : list A :=
  take (j - i) (drop i l).

(** [l[i:-j]] for [0 <= i], [0 < j]. *)
Definition slice_to_end {A} (l : list A) (i j : nat) : list A :=
  slice l i (length l - j).

(** [s.split(sep)] for a separator of one ASCII character: the pieces
    between consecutive occurrences, empty pieces included, never an
    empty list.  No byte of the encoding of another character is the
    byte of an ASCII character, so the pieces are cut where Python cuts
    them. *)
Fixpoint str_split (sep : ascii) (s : string) : list string :=
  match s with
  | EmptyString => [EmptyString]
  | String c rest =>
      if Ascii.eqb c sep then EmptyString :: str_split sep rest
      else match str_split sep rest with
           | piece :: pieces => String c piece :: pieces
           | [] => [String c EmptyString]
           end
  end.

(** The code points of a str, from its UTF-8 encoding.  [lead b] reads
    the first byte of a character: a code point that is complete, or the
    bits the byte brings and the number of bytes still to come.  Bytes
    that are the encoding of no text give U+FFFD. *)
Definition replacement : N := 0xFFFD.

Definition lead (b : N) : option N * (N * nat) :=
  if (b <? 0x80)%N then (Some b, (0%N, 0))
  else if (b <? 0xC0)%N then (Some replacement, (0%N, 0))
  else if (b <? 0xE0)%N then (None, ((b - 0xC0)%N, 1))
  else if (b <? 0xF0)%N then (None, ((b - 0xE0)%N, 2))
  else if (b <? 0xF8)%N then (None, ((b - 0xF0)%N, 3))
  else (Some replacement, (0%N, 0)).

Fixpoint utf8_decode (acc : N) (need : nat) (bs : list N) : list N :=
  match bs with
  | [] => match need with 0 => [] | S _ => [replacement] end
  | b :: bs' =>
      match need with
      | S need' =>
          if ((0x80 <=? b) && (b <? 0xC0))%N then
            let acc := (acc * 64 + (b - 0x80))%N in
            match need' with
            | 0 => acc :: utf8_decode 0 0 bs'
            | S _ => utf8_decode acc need' bs'
            end
          else
            replacement ::
            match lead b with
            | (Some c, _) => c :: utf8_decode 0 0 bs'
            | (None, (acc, need)) => utf8_decode acc need bs'
            end
      | 0 =>
          match lead b with
          | (Some c, _) => c :: utf8_decode 0 0 bs'
          | (None, (acc, need)) => utf8_decode acc need bs'
          end
      end
  end.

Definition code_points (s : string) : list N :=
  utf8_decode 0 0 (N_of_ascii <$> list_ascii_of_string s).

(** [int(s)], base 10.  The text is first brought to ASCII
    ([_PyUnicode_TransformDecimalAndSpaceToASCII]): a white-space
    character beyond ASCII counts as a space, a decimal digit of any
    script as the ASCII digit of its value, and ASCII characters stay
    as they are.  Then, after [PyLong_FromString], white space on both
    sides is skipped, one sign is allowed, then decimal digits, single
    underscores allowed between digits.

    [is_space]: the six ASCII characters that C's [isspace] knows
    (U+001C to U+001F are white space for [str.isspace] but not here),
    and the white space of Unicode beyond ASCII. *)
Definition is_space (c : N) : bool :=
  ((c =? 0x20) || ((0x09 <=? c) && (c <=? 0x0D))
   || (c =? 0x85) || (c =? 0xA0) || (c =? 0x1680)
   || ((0x2000 <=? c) && (c <=? 0x200A))
   || (c =? 0x2028) || (c =? 0x2029) || (c =? 0x202F) || (c =? 0x205F)
   || (c =? 0x3000))%N.

(** The decimal digits (general category Nd) of Unicode 11.0 come in
    runs of ten, from the digit zero to the digit nine of a script;
    these are the code points of the digits zero. *)
Definition digit_zeros : list N :=
  [0x30; 0x660; 0x6F0; 0x7C0; 0x966; 0x9E6; 0xA66; 0xAE6; 0xB66; 0xBE6;
   0xC66; 0xCE6; 0xD66; 0xDE6; 0xE50; 0xED0; 0xF20; 0x1040; 0x1090;
   0x17E0; 0x1810; 0x1946; 0x19D0; 0x1A80; 0x1A90; 0x1B50; 0x1BB0;
   0x1C40; 0x1C50; 0xA620; 0xA8D0; 0xA900; 0xA9D0; 0xA9F0; 0xAA50;
   0xABF0; 0xFF10; 0x104A0; 0x10D30; 0x11066; 0x110F0; 0x11136; 0x111D0;
   0x112F0; 0x11450; 0x114D0; 0x11650; 0x116C0; 0x11730; 0x118E0;
   0x11C50; 0x11D50; 0x11DA0; 0x16A60; 0x16B50; 0x1D7CE; 0x1D7D8;
   0x1D7E2; 0x1D7EC; 0x1D7F6; 0x1E950]%N.

Definition digit_val (c : N) : option Z :=
  (λ zero, Z.of_N (c - zero)) <$>
    find (λ zero, (zero <=? c) && (c <? zero + 10))%N digit_zeros.

Fixpoint lstrip (s : list N) : list N :=
  match s with
  | c :: rest => if is_space c then lstrip rest else s
  | [] => []
  end.

Fixpoint all_space (s : list N) : bool :=
  match s with
  | c :: rest => is_space c && all_space rest
  | [] => true
  end.

(** The digits after the first one; [acc] is the value read so far and
    [after_us] tells that the previous character was an underscore. *)
Fixpoint digits (s : list N) (acc : Z) (after_us : bool) : option Z :=
  match s with
  | [] => if after_us then None else Some acc
  | c :: rest =>
      match digit_val c with
      | Some d => digits rest (10 * acc + d)%Z false
      | None =>
          if after_us then None
          else if (c =? 0x5F)%N then digits rest acc true
          else if all_space s then Some acc
          else None
      end
  end.

Definition unsigned (s : list N) : option Z :=
  match s with
  | c :: rest =>
      match digit_val c with
      | Some d => digits rest d false
      | None => None
      end
  | [] => None
  end.

(** [0x2D] is the minus sign, [0x2B] the plus sign. *)
Definition int_opt (s : string) : option Z :=
  match lstrip (code_points s) with
  | c :: rest =>
      if (c =? 0x2D)%N then Z.opp <$> unsigned rest
      else if (c =? 0x2B)%N then unsigned rest
      else unsigned (c :: rest)
  | [] => None
  end.

Definition int (s : string) : result Z :=
  match int_opt s with
  | Some z => Return z
  | None => Raise ValueError
  end.

End Py.

Import Py.

(** ** numpy: what [np.array] makes of a list of lists of str *)

Module Np.

(** With numpy 1.18 [np.array(l)] is, for inner lists of one common
    length, a 2-D array of str whose rows are 1-D arrays ([Rect]), and
    otherwise a 1-D array of dtype object whose items are the Python
    lists themselves ([Ragged]).  The empty list gives an empty array. *)
Inductive layout : Type := Rect | Ragged.

Definition layout_of {A} (l : list (list A)) : layout :=
  match l with
  | [] => Rect
  | f :: fs =>
      if forallb (λ g, length g =? length f) fs then Rect else Ragged
  end.

(** [bool(a)] for a 1-D array of booleans: defined for one element,
    [False] for none, a ValueError (ambiguous truth value) otherwise. *)
Definition truth (a : list bool) : result bool :=
  match a with
  | [] => Return false
  | [b] => Return b
  | _ => Raise ValueError
  end.

(** [np.where(mask)[0]] *)
Fixpoint where_from (i : nat) (mask : list bool) : list nat :=
  match mask with
  | [] => []
  | b :: mask' =>
      if b then i :: where_from (S i) mask' else where_from (S i) mask'
  end.

Definition where_ (mask : list bool) : list nat := where_from 0 mask.

(** [a[idx]] for an integer array [idx] of indices [>= 0]: an
    IndexError as soon as one index is out of bounds. *)
Fixpoint take_idx {A} (a : list A) (idx : list nat) : result (list A) :=
  match idx with
  | [] => Return []
  | i :: idx' =>
      x ← getitem a i;
      xs ← take_idx a idx';
      Return (x :: xs)
  end.

(** [idx.min()] : a ValueError on an empty array. *)
Definition min_ (idx : list nat) : result nat :=
  match idx with
  | [] => Raise ValueError
  | i :: idx' => Return (foldr Nat.min i idx')
  end.

(** *** Arrays of Python ints *)

(** The dtypes that an array made of Python ints can have. *)
Inductive dtype : Type := int64 | uint64 | float64 | object.

(** The dtype found for one Python int: the first of int64, uint64 and
    object that holds it. *)
Definition int_dtype (z : Z) : dtype :=
  if ((- 2 ^ 63 <=? z) && (z <? 2 ^ 63))%Z then int64
  else if ((0 <=? z) && (z <? 2 ^ 64))%Z then uint64
  else object.

(** [np.promote_types]: no integer dtype holds both int64 and uint64,
    their common dtype is float64. *)
Definition promote_types (a b : dtype) : dtype :=
  match a, b with
  | object, _ | _, object => object
  | float64, _ | _, float64 => float64
  | int64, int64 => int64
  | uint64, uint64 => uint64
  | int64, uint64 | uint64, int64 => float64
  end.

(** An item of such an array: an integer (an int64, a uint64 or, in an
    array of objects, a Python int), or a double (a float64 or, in an
    array of objects, a Python float).  The doubles met here are
    conversions of integers, and [Float z] is the double of value [z]. *)
Inductive scalar : Type :=
| Int (z : Z)
| Float (z : Z).

Definition value (x : scalar) : Z :=
  match x with Int z | Float z => z end.

(** The double nearest to the integer [z], ties to the even mantissa:
    an integer of more than 53 bits loses its [e] low bits.  The
    integers converted here are below 2^64 in absolute value, far from
    the largest double. *)
Definition to_double (z : Z) : Z :=
  let n := Z.abs z in
  let e := (Z.log2 n - 52)%Z in
  if (e <=? 0)%Z then z
  else
    let q := Z.shiftr n e in
    let r := Z.land n (Z.ones e) in
    let half := Z.shiftl 1 (e - 1) in
    let up := (half <? r)%Z || ((r =? half)%Z && Z.odd q) in
    (Z.sgn z * Z.shiftl (if up then q + 1 else q) e)%Z.

(** The item [x] once in an array of dtype [dt] that can hold it. *)
Definition astype (dt : dtype) (x : scalar) : scalar :=
  match dt, x with
  | float64, Int z => Float (to_double z)
  | _, _ => x
  end.

(** [np.array(l)] for a list of Python ints: the common dtype of the
    items, float64 for the empty list, and the items. *)
Definition array_dtype (l : list Z) : dtype :=
  match l with
  | [] => float64
  | z :: l' => foldl (λ dt x, promote_types dt (int_dtype x)) (int_dtype z) l'
  end.

Definition array (l : list Z) : dtype * list scalar :=
  (array_dtype l, (λ z, astype (array_dtype l) (Int z)) <$> l).

(** [np.concatenate((a.reshape(-1,1), b.reshape(-1,1)), axis=1)]: the
    two columns side by side in the common dtype, a ValueError when they
    differ in length. *)
Definition concatenate (a b : dtype * list scalar)
    : result (dtype * list (scalar * scalar)) :=
  if length a.2 =? length b.2 then
    let dt := promote_types a.1 b.1 in
    Return (dt, zip (astype dt <$> a.2) (astype dt <$> b.2))
  else Raise ValueError.

(** The item that shows the Python int [z] in an array of dtype [dt]:
    the integer itself in an array of int64 or uint64, the double
    nearest to it in an array of float64, one of the two in an array of
    objects. *)
Definition shows (dt : dtype) (x : scalar) (z : Z) : Prop :=
  match dt with
  | int64 | uint64 => x = Int z
  | float64 => x = Float (to_double z)
  | object => x = Int z ∨ x = Float (to_double z)
  end.

End Np.

(** ** The scraper *)

Definition fragment : Type := list string.

(** A row of the frame: the items of its two columns. *)
Record row : Type := Row {
  time_until_sent_home : Np.scalar;
  time_until_admitted : Np.scalar
}.

(** An index label: an item of the flattened name array, a str when the
    array of names is 2-D and a whole list when it is an object array. *)
Inductive label : Type :=
| Name (s : string)
| Parts (l : list string).

(** The returned frame: the dtype of its two columns, its rows, and its
    index; [index = None] is the default [RangeIndex]. *)
Record DataFrame : Type := Frame {
  dtypes : Np.dtype;
  rows : list row;
  index : option (list label)
}.

(** [(val == ['']) or (val == textlist[-1])] as the condition of the
    comprehension.  On an object array both comparisons are comparisons of
    lists; on a 2-D array they are elementwise and the condition takes
    the truth value of the resulting arrays. *)
Definition is_separator (ly : Np.layout) (val last_ : fragment) : result bool :=
  match ly with
  | Np.Ragged => Return (bool_decide (val = [""]) || bool_decide (val = last_))
  | Np.Rect =>
      b ← Np.truth ((λ s, bool_decide (s = "")) <$> val);
      if b : bool then Return true
      else Np.truth (zip_with (λ s t, bool_decide (s = t)) val last_)
  end.

Fixpoint idx_list_from (ly : Np.layout) (last_ : fragment) (idx : nat)
    (vals : list fragment) : result (list nat) :=
  match vals with
  | [] => Return []
  | val :: vals' =>
      b ← is_separator ly val last_;
      rest ← idx_list_from ly last_ (S idx) vals';
      Return (if b : bool then idx :: rest else rest)
  end.

(** [[idx for idx, val in enumerate(textlist)
      if (val == ['']) or (val == textlist[-1])]] *)
Definition idx_list (textlist : list fragment) : result (list nat) :=
  idx_list_from (Np.layout_of textlist) (default [] (last textlist)) 0 textlist.

(** [[textlist[idx_list[i]:idx_list[i+1]] for i in range(len(idx_list)-1)]] *)
Definition slices_list (textlist : list fragment) (idx_list : list nat)
    : list (list fragment) :=
  (λ i, slice textlist (idx_list !!! i) (idx_list !!! S i))
    <$> seq 0 (length idx_list - 1).

(** [np.where(np.logical_or(len_slices == 5, len_slices == 6))[0]] *)
Definition useable_data_idx (len_slices : list nat) : list nat :=
  Np.where_ ((λ n, (n =? 5) || (n =? 6)) <$> len_slices).

(** One numeric field of a candidate [tmp]: the [try] computes
    [60*int(tmp[k][0]) + int(tmp[k][1])], the handler computes
    [int(tmp[k][0].split(' ')[0])]. *)
Definition minutes (tmp : list fragment) (k : nat) : result Z :=
  try_except
    (f ← getitem tmp k; h ← getitem f 0; a ← int h;
     g ← getitem tmp k; m ← getitem g 1; b ← int m;
     Return (60 * a + b)%Z)
    (f ← getitem tmp k; s ← getitem f 0;
     t ← getitem (str_split " " s) 0;
     int t).

(** The loop over [pruned_slices_list], with its two accumulators. *)
Fixpoint parse_loop (pruned : list (list fragment))
    (sent_home_times admission_times : list Z) : result (list Z * list Z) :=
  match pruned with
  | [] => Return (sent_home_times, admission_times)
  | p :: pruned' =>
      let tmp := take 5 p in
      sh ← minutes tmp 1;
      let sent_home_times := sent_home_times ++ [sh] in
      ad ← minutes tmp 3;
      let admission_times := admission_times ++ [ad] in
      parse_loop pruned' sent_home_times admission_times
  end.

(** [namelist[9:-12][hospitals_idx].flatten()], then the length check
    that [df.index = ...] makes. *)
Definition flatten (ly : Np.layout) (sel : list fragment) : list label :=
  match ly with
  | Np.Rect => Name <$> concat sel
  | Np.Ragged => Parts <$> sel
  end.

Definition align_labels (namelist : list fragment)
    (useable_data_idx : list nat) (nrows : nat) : result (list label) :=
  m ← Np.min_ useable_data_idx;
  let hospitals_idx := (λ i, i - m) <$> useable_data_idx in
  sel ← Np.take_idx (slice_to_end namelist 9 12) hospitals_idx;
  let labels := flatten (Np.layout_of namelist) sel in
  if length labels =? nrows then Return labels else Raise ValueError.

(** The body of the [try] of the label attachment, from the text of the
    [<a>] elements. *)
Definition hospital_labels (anchor_texts : list string)
    (useable_data_idx : list nat) (nrows : nat) : result (list label) :=
  let namelist := str_split ":" <$> anchor_texts in
  align_labels namelist useable_data_idx nrows.

(** [np.concatenate((np.array(sent_home_times).reshape(-1,1),
                      np.array(admission_times).reshape(-1,1)), axis=1)] *)
Definition two_column_array (sent_home_times admission_times : list Z)
    : result (Np.dtype * list (Np.scalar * Np.scalar)) :=
  Np.concatenate (Np.array sent_home_times) (Np.array admission_times).

(** [pd.DataFrame(two_column_array,
                  columns=['time_until_sent_home','time_until_admitted'])] *)
Definition pd_DataFrame (a : Np.dtype * list (Np.scalar * Np.scalar))
    : DataFrame :=
  Frame a.1 ((λ x, Row x.1 x.2) <$> a.2) None.

(** [import_state_info], from the text of the [<span>] elements and of
    the [<a>] elements of the fetched page. *)
Definition import_state_info (span_texts anchor_texts : list string)
    (hospital_names : bool) : result DataFrame :=
  let textlist := str_split ":" <$> span_texts in
  idx_list ← idx_list textlist;
  let slices_list := slices_list textlist idx_list in
  let len_slices := length <$> slices_list in
  let useable_data_idx := useable_data_idx len_slices in
  pruned_slices_list ← Np.take_idx slices_list useable_data_idx;
  times ← parse_loop pruned_slices_list [] [];
  two_column_array ← two_column_array times.1 times.2;
  let df := pd_DataFrame two_column_array in
  if hospital_names then
    match hospital_labels anchor_texts useable_data_idx (length (rows df)) with
    | Return labels => Return (Frame (dtypes df) (rows df) (Some labels))
    | Raise _ => Return df
    end
  else Return df.

(** ** The notions the properties are stated with *)

Definition textlist_of (span_texts : list string) : list fragment :=
  str_split ":" <$> span_texts.

(** Separator test by comparison of lists: the fragment is [['']] or it
    is equal to the last fragment. *)
Definition separator (textlist : list fragment) (val : fragment) : bool :=
  bool_decide (val = [""]) || bool_decide (val = default [] (last textlist)).

Definition sep_positions (textlist : list fragment) : list nat :=
  Np.where_ (separator textlist <$> textlist).

(** Record candidates: the slices between successive separator positions. *)
Definition candidates (span_texts : list string) : list (list fragment) :=
  slices_list (textlist_of span_texts) (sep_positions (textlist_of span_texts)).

(** The validation gate and the validated records. *)
Definition gate (p : list fragment) : Prop := length p = 5 ∨ length p = 6.

#[global] Instance gate_dec p : Decision (gate p).
Proof. unfold gate. apply _. Defined.

Definition validated (span_texts : list string) : list (list fragment) :=
  filter gate (candidates span_texts).

(** The output field that belongs to fragment position [k]. *)
Definition field (k : nat) (r : row) : Np.scalar :=
  if k =? 1 then time_until_sent_home r else time_until_admitted r.

(** The row of two integer items. *)
Definition ints (a b : Z) : row := Row (Np.Int a) (Np.Int b).

(** The hours:minutes reading of a fragment: its first two elements as
    integers [h] and [m] give [60*h + m]. *)
Definition hours_minutes (f : fragment) : option Z :=
  match f with
  | h :: m :: _ => a ← int_opt h; b ← int_opt m; Some (60 * a + b)%Z
  | _ => None
  end.

(** The text of [s] before its first space character. *)
Fixpoint before_space (s : string) : string :=
  match s with
  | EmptyString => EmptyString
  | String c rest =>
      if Ascii.eqb c " " then EmptyString else String c (before_space rest)
  end.

(** The bare-minutes reading of a fragment: the text of its first
    element before the first space, as an integer. *)
Definition bare_minutes (f : fragment) : option Z :=
  match f with
  | s :: _ => int_opt (before_space s)
  | [] => None
  end.

(** The first token of [s] when white space of any kind delimits the
    tokens, here the six white-space characters of ASCII: the reading,
    on ASCII text, of the specification's "first whitespace-delimited
    token" ([s.split()[0]]). *)
Definition first_whitespace_token (s : string) : string :=
  default EmptyString (head (String.words s)).

(** The number read from a fragment: by the hours:minutes reading when
    there is one, by the bare-minutes reading otherwise. *)
Definition reading (f : fragment) : option Z :=
  match hours_minutes f with
  | Some z => Some z
  | None => bare_minutes f
  end.

(** The number written in [s] has a minus sign: the first character of
    [s] after the white space is ['-']. *)
Definition minus_signed (s : string) : bool :=
  match lstrip (code_points s) with
  | c :: _ => (c =? 0x2D)%N
  | [] => false
  end.

(** A minus sign stands before one of the numbers that the reading of
    [f] reads: the hours or the minutes, or the bare minutes. *)
Definition negative_written (f : fragment) : bool :=
  match hours_minutes f, f with
  | Some _, h :: m :: _ => minus_signed h || minus_signed m
  | None, s :: _ => minus_signed (before_space s)
  | _, _ => false
  end.

(** The separator positions as the specification words them: the
    indices of the fragments equal to [['']], and the final index. *)
Definition sep_positions_spec (textlist : list fragment) : list nat :=
  Np.where_
    (imap (λ i val, bool_decide (val = [""] ∨ S i = length textlist)) textlist).

(** The indices, among the candidates, of the retained ones. *)
Definition retained_idx (span_texts : list string) : list nat :=
  useable_data_idx (length <$> candidates span_texts).

(** The two fields of a retained candidate [p], as the loop body
    computes them. *)
Definition fields_of (p : list fragment) (v : Z * Z) : Prop :=
  minutes (take 5 p) 1 = Return v.1 ∧ minutes (take 5 p) 3 = Return v.2.

Definition fails (p : list fragment) : Prop :=
  (∃ e, minutes (take 5 p) 1 = Raise e) ∨ (∃ e, minutes (take 5 p) 3 = Raise e).

(** The frame after the label attachment: with the labels as index when
    the alignment succeeds, as it is when the alignment raises or is not
    asked for. *)
Definition labeled (anchor_texts : list string) (retained : list nat)
    (hospital_names : bool) (df : DataFrame) : DataFrame :=
  if hospital_names then
    match hospital_labels anchor_texts retained (length (rows df)) with
    | Return labels => Frame (dtypes df) (rows df) (Some labels)
    | Raise _ => df
    end
  else df.

(** Every minute count of the validated records is in the range of
    int64. *)
Definition in_int64 (z : Z) : bool := ((- 2 ^ 63 <=? z) && (z <? 2 ^ 63))%Z.

Definition int64_page (span_texts : list string) : bool :=
  forallb
    (λ p, forallb
            (λ k, match minutes (take 5 p) k with
                  | Return v => in_int64 v
                  | Raise _ => true
                  end)
            [1; 3])
    (validated span_texts).

(** A page with candidates of length 5, 6, 4 and 7, in this order. *)
Definition er_page : list string :=
  ["junk"; ""; "2:30"; "x"; "1:15"; "y"; "";
   "45 min"; "x"; "3:05"; "y"; "flag"; "";
   "a"; "b"; "c"; "";
   "4:00"; "x"; "5:00"; "y"; "flag"; "more"; ""].

(** ["45<TAB>min"] *)
Definition tab_minutes : string := String "4" (String "5" (String "009" "min")).

(** The no-break space U+00A0, in UTF-8. *)
Definition nbsp : string := String "194" (String "160" EmptyString).

(** A page whose sent-home time is 153722867280912931 hours, that is
    9223372036854775860 minutes, above 2^63 - 1 = 9223372036854775807;
    and the same page with a third part after the minutes. *)
Definition long_wait_page : list string :=
  [""; "153722867280912931:0"; "x"; "1:15"; "y"; ""].

Definition long_wait_page3 : list string :=
  [""; "153722867280912931:0:x"; "x"; "1:15"; "y"; ""].

(** ** The run with its objects *)

Module Store.

(** The mutable objects a run works on. *)
Inductive obj : Type :=
| FragList (l : list fragment)
| IntList (l : list Z)
| FrameObj (df : DataFrame).

(** The objects of the process; the identity of an object is its
    position. *)
Definition store : Type := list obj.

Definition M (A : Type) : Type := store → result A * store.

#[global] Instance M_ret : MRet M := λ A a σ, (Return a, σ).

#[global] Instance M_bind : MBind M := λ A B k m σ,
  match m σ with
  | (Return a, σ') => k a σ'
  | (Raise e, σ') => (Raise e, σ')
  end.

(** A computation without effect on the objects. *)
Definition lift {A} (r : result A) : M A := λ σ, (r, σ).

(** A new object. *)
Definition alloc (o : obj) : M nat := λ σ, (Return (length σ), σ ++ [o]).

(** [l.append(f)] on a list of fragments *)
Definition append_frag (id : nat) (f : fragment) : M () := λ σ,
  (Return (), alter (λ o, if o is FragList l then FragList (l ++ [f]) else o) id σ).

(** [l.append(z)] on a list of integers *)
Definition append_int (id : nat) (z : Z) : M () := λ σ,
  (Return (), alter (λ o, if o is IntList l then IntList (l ++ [z]) else o) id σ).

(** [df.index = labels], after the length check *)
Definition set_index (id : nat) (labels : list label) : M () := λ σ,
  (Return (),
   alter (λ o, if o is FrameObj df
               then FrameObj (Frame (dtypes df) (rows df) (Some labels)) else o)
     id σ).

Definition get_frags (id : nat) : M (list fragment) := λ σ,
  (Return (if σ !! id is Some (FragList l) then l else []), σ).

Definition get_ints (id : nat) : M (list Z) := λ σ,
  (Return (if σ !! id is Some (IntList l) then l else []), σ).

Definition get_frame (id : nat) : M DataFrame := λ σ,
  (Return (if σ !! id is Some (FrameObj df) then df
           else Frame Np.float64 [] None), σ).

(** [for x in l: body] *)
Fixpoint for_each {A} (l : list A) (body : A → M ()) : M () :=
  match l with
  | [] => mret ()
  | x :: l' => body x;; for_each l' body
  end.

(** [try: body except: pass] *)
Definition try_pass (body : M ()) : M () := λ σ,
  (Return (), (body σ).2).

Definition import_state_info (span_texts anchor_texts : list string)
    (hospital_names : bool) : M DataFrame :=
  textlist ← alloc (FragList []);
  for_each span_texts (λ s, append_frag textlist (str_split ":" s));;
  tl ← get_frags textlist;
  idx_list ← lift (idx_list tl);
  let slices_list := slices_list tl idx_list in
  let len_slices := length <$> slices_list in
  let useable_data_idx := useable_data_idx len_slices in
  pruned_slices_list ← lift (Np.take_idx slices_list useable_data_idx);
  sent_home_times ← alloc (IntList []);
  admission_times ← alloc (IntList []);
  for_each pruned_slices_list (λ p,
    let tmp := take 5 p in
    sh ← lift (minutes tmp 1);
    append_int sent_home_times sh;;
    ad ← lift (minutes tmp 3);
    append_int admission_times ad);;
  sh ← get_ints sent_home_times;
  ad ← get_ints admission_times;
  two_column_array ← lift (two_column_array sh ad);
  df ← alloc (FrameObj (pd_DataFrame two_column_array));
  (if hospital_names then
     try_pass (
       namelist ← alloc (FragList []);
       for_each anchor_texts (λ n, append_frag namelist (str_split ":" n));;
       nl ← get_frags namelist;
       d ← get_frame df;
       labels ← lift (align_labels nl useable_data_idx (length (rows d)));
       set_index df labels)
   else mret ());;
  get_frame df.

End Store.

(** ** Notions for the further properties *)

(** Fragments whose comparisons in the comprehension have a truth
    value: a ragged array, or rows of one element at most. *)
Definition comparable (textlist : list fragment) : Prop :=
  Np.layout_of textlist = Np.Ragged ∨ Forall (λ f, length f ≤ 1) textlist.

(** A fragment that has one of the two readings. *)
Definition readable (f : fragment) : Prop :=
  is_Some (hours_minutes f) ∨ is_Some (bare_minutes f).

Definition readable_at (p : list fragment) (k : nat) : Prop :=
  ∃ f, p !! k = Some f ∧ readable f.

(** The label made of the text [a] of an anchor. *)
Definition anchor_label (ly : Np.layout) (a : string) : label :=
  match ly with
  | Np.Rect => Name a
  | Np.Ragged => Parts (str_split ":" a)
  end.

(** The number of occurrences of [c] in [s]. *)
Fixpoint count_char (c : ascii) (s : string) : nat :=
  match s with
  | EmptyString => 0
  | String d rest => (if Ascii.eqb d c then 1 else 0) + count_char c rest
  end.

(** The anchors of a page: nine of navigation, two hospitals, twelve of
    footer. *)
Definition er_anchors : list string :=
  ["n1"; "n2"; "n3"; "n4"; "n5"; "n6"; "n7"; "n8"; "n9";
   "St. Mary"; "Mercy";
   "f1"; "f2"; "f3"; "f4"; "f5"; "f6"; "f7"; "f8"; "f9"; "f10"; "f11"; "f12"].

(** * Properties *)

(** Unfolds the binds of the exception monad. *)
Ltac unbind := cbv [mbind result_bind].

(** ** The model on small inputs *)

Example str_split_examples :
  str_split ":" "2:30" = ["2"; "30"] ∧
  str_split ":" "" = [""] ∧
  str_split ":" "a::b:" = ["a"; ""; "b"; ""] ∧
  str_split " " "45 min" = ["45"; "min"] ∧
  str_split " " " 45" = [""; "45"].
Proof. repeat split; reflexivity. Qed.

Example int_examples :
  int "30" = Return 30%Z ∧ int " 05 " = Return 5%Z ∧
  int "-1" = Return (-1)%Z ∧ int "+7" = Return 7%Z ∧
  int "1_000" = Return 1000%Z ∧
  int "" = Raise ValueError ∧ int "45 min" = Raise ValueError ∧
  int "- 1" = Raise ValueError ∧ int "1__0" = Raise ValueError ∧
  int "_1" = Raise ValueError ∧ int "1_" = Raise ValueError.
Proof. repeat split; vm_compute; reflexivity. Qed.

(** White space and digits beyond ASCII: a no-break space on either
    side, Arabic-Indic digits, fullwidth digits, an ideographic space;
    the Unicode minus sign U+2212 is no sign, and U+001F is no white
    space for [int]. *)
Example int_unicode_examples :
  int ("30" +:+ nbsp) = Return 30%Z ∧ int (nbsp +:+ "2") = Return 2%Z ∧
  int "٣٠" = Return 30%Z ∧ int "-１２" = Return (-12)%Z ∧
  int "1_٢" = Return 12%Z ∧
  int (String "227" (String "128" (String "128" "5"))) = Return 5%Z ∧
  int "−5" = Raise ValueError ∧ int "²" = Raise ValueError ∧
  int (String "031" "5") = Raise ValueError ∧ int nbsp = Raise ValueError.
Proof. repeat split; vm_compute; reflexivity. Qed.

(** [np.array] and [np.concatenate] on columns of Python ints: int64
    within the range of int64; a count from 2^63 on makes its column
    uint64, and next to a column of int64 the frame float64, where
    9223372036854775860 is rounded to 2^63; from 2^64 on the columns are
    arrays of objects. *)
Example two_column_array_examples :
  two_column_array [150; 45]%Z [75; 185]%Z
  = Return (Np.int64, [(Np.Int 150, Np.Int 75); (Np.Int 45, Np.Int 185)]) ∧
  two_column_array [] [] = Return (Np.float64, []) ∧
  two_column_array [9223372036854775860]%Z [75]%Z
  = Return (Np.float64, [(Np.Float 9223372036854775808, Np.Float 75)]) ∧
  two_column_array [9223372036854775860]%Z [9223372036854775860]%Z
  = Return (Np.uint64,
            [(Np.Int 9223372036854775860, Np.Int 9223372036854775860)]) ∧
  two_column_array [9223372036854775860; -1]%Z [18446744073709551616; 2]%Z
  = Return (Np.object,
            [(Np.Float 9223372036854775808, Np.Int 18446744073709551616);
             (Np.Float (-1), Np.Int 2)]) ∧
  two_column_array [1]%Z [] = Raise ValueError.
Proof. repeat split; vm_compute; reflexivity. Qed.

(** Two records, one of them in the [NN min] form. *)
Example er_page_run :
  candidates er_page
  = [[[""]; ["2"; "30"]; ["x"]; ["1"; "15"]; ["y"]];
     [[""]; ["45 min"]; ["x"]; ["3"; "05"]; ["y"]; ["flag"]];
     [[""]; ["a"]; ["b"]; ["c"]];
     [[""]; ["4"; "00"]; ["x"]; ["5"; "00"]; ["y"]; ["flag"]; ["more"]]] ∧
  import_state_info er_page [] false
  = Return (Frame Np.int64 [ints 150 75; ints 45 185] None).
Proof. split; vm_compute; reflexivity. Qed.

(** When every span holds exactly one colon the array of fragments is
    2-D with rows of two elements, and the condition of the comprehension
    has no truth value. *)
Example rectangular_page_raises :
  import_state_info ["1:2"; "2:30"; "3:4"] [] false = Raise ValueError.
Proof. vm_compute. reflexivity. Qed.

(** Names without colon give str labels; a colon in one of them makes
    the array of names ragged and the labels whole lists; two parts in
    every name make the flattened array too long and the frame stays
    unlabeled. *)
Example labeled_runs :
  let nav := ["n1"; "n2"; "n3"; "n4"; "n5"; "n6"; "n7"; "n8"; "n9"] in
  let foot := ["f1"; "f2"; "f3"; "f4"; "f5"; "f6";
               "f7"; "f8"; "f9"; "f10"; "f11"; "f12"] in
  import_state_info er_page (nav ++ ["St. Mary"; "Mercy"] ++ foot) true
  = Return (Frame Np.int64 [ints 150 75; ints 45 185]
              (Some [Name "St. Mary"; Name "Mercy"])) ∧
  import_state_info er_page (nav ++ ["St. Mary: ER"; "Mercy"] ++ foot) true
  = Return (Frame Np.int64 [ints 150 75; ints 45 185]
              (Some [Parts ["St. Mary"; " ER"]; Parts ["Mercy"]])) ∧
  import_state_info er_page
    ((λ n, n +:+ ":x") <$> (nav ++ ["St. Mary"; "Mercy"] ++ foot)) true
  = Return (Frame Np.int64 [ints 150 75; ints 45 185] None).
Proof. repeat split; vm_compute; reflexivity. Qed.

(** A no-break space after the minutes does not stop the hours:minutes
    reading; a count above the range of int64 in one column makes both
    columns float64. *)
Example unusual_pages :
  import_state_info [""; "2:30" +:+ nbsp; "x"; nbsp +:+ "1:15"; "y"; ""] [] false
  = Return (Frame Np.int64 [ints 150 75] None) ∧
  import_state_info long_wait_page [] false
  = Return (Frame Np.float64
              [Row (Np.Float 9223372036854775808) (Np.Float 75)] None).
Proof. split; vm_compute; reflexivity. Qed.

(** ** Python primitives *)

Lemma str_split_nonempty sep s : str_split sep s ≠ [].
Proof.
  induction s as [|c s IH]; simpl; [done|].
  destruct (Ascii.eqb c sep); [done|]. by destruct (str_split sep s).
Qed.

Lemma textlist_of_nonempty span_texts :
  Forall (λ f : fragment, f ≠ []) (textlist_of span_texts).
Proof.
  unfold textlist_of. apply Forall_fmap, Forall_forall.
  intros s _. apply str_split_nonempty.
Qed.

Lemma int_Return s z : int s = Return z ↔ int_opt s = Some z.
Proof. unfold int. destruct (int_opt s); split; congruence. Qed.

Lemma bind_Return {A B} (m : result A) (k : A → result B) b :
  (m ≫= k) = Return b ↔ ∃ a, m = Return a ∧ k a = Return b.
Proof.
  destruct m as [a|e]; unbind; split.
  - eauto.
  - by intros (a' & [= <-] & ?).
  - done.
  - by intros (a' & ? & ?).
Qed.

Lemma bind_Raise {A B} (m : result A) (k : A → result B) e :
  (m ≫= k) = Raise e ↔ m = Raise e ∨ ∃ a, m = Return a ∧ k a = Raise e.
Proof.
  destruct m as [a|e']; unbind; split.
  - intros H. right. eauto.
  - by intros [?|(a' & [= <-] & ?)].
  - intros [= ->]. by left.
  - by intros [[= ->]|(a' & ? & ?)].
Qed.

(** ** Separator positions *)

Lemma truth_Return_length a b : Np.truth a = Return b → length a ≤ 1.
Proof. destruct a as [|? [|? ?]]; simpl; [lia|lia|done]. Qed.

Lemma is_separator_Raise ly val last_ e :
  is_separator ly val last_ = Raise e → e = ValueError.
Proof.
  destruct ly; simpl; [|done].
  assert (∀ a, Np.truth a = Raise e → e = ValueError) as Ht.
  { intros [|? [|? ?]] ?; by simplify_eq/=. }
  intros [H|(b & _ & H)]%bind_Raise; [by eapply Ht|].
  destruct b; [done|by eapply Ht].
Qed.

(** Whenever the condition of the comprehension has a value, it is the
    comparison of lists: for a 2-D array this needs rows of one element. *)
Lemma is_separator_Return ly val last_ b :
  val ≠ [] → (ly = Np.Rect → length last_ = length val) →
  is_separator ly val last_ = Return b →
  b = bool_decide (val = [""]) || bool_decide (val = last_).
Proof.
  intros Hval Hlen. destruct ly; simpl; [|by intros [= <-]].
  intros (b1 & H1 & H2)%bind_Return.
  pose proof (truth_Return_length _ _ H1) as Hl. rewrite length_fmap in Hl.
  destruct val as [|s [|? ?]]; simpl in *; [done| |lia].
  specialize (Hlen eq_refl). destruct last_ as [|t [|? ?]]; simplify_eq/=.
  rewrite (bool_decide_ext ([s] = [""]) (s = "")) by naive_solver.
  rewrite (bool_decide_ext ([s] = [t]) (s = t)) by naive_solver.
  destruct (bool_decide (s = "")); simpl in *; congruence.
Qed.

Lemma idx_list_from_Return ly last_ i vals idx :
  Forall (λ val, val ≠ [] ∧ (ly = Np.Rect → length last_ = length val)) vals →
  idx_list_from ly last_ i vals = Return idx →
  idx = Np.where_from i
          ((λ val, bool_decide (val = [""]) || bool_decide (val = last_)) <$> vals).
Proof.
  intros Hvals. revert i idx.
  induction Hvals as [|val vals [Hne Hlen] _ IH]; intros i idx; simpl.
  - congruence.
  - intros (b & Hb & (rest & Hrest & [= <-])%bind_Return)%bind_Return.
    apply is_separator_Return in Hb; [|done..]. subst b.
    by rewrite (IH _ _ Hrest).
Qed.

Lemma idx_list_from_Raise ly last_ i vals e :
  idx_list_from ly last_ i vals = Raise e → e = ValueError.
Proof.
  revert i. induction vals as [|val vals IH]; intros i; simpl; [done|].
  intros [H|(b & _ & [H|(rest & _ & H)]%bind_Raise)]%bind_Raise.
  - by eapply is_separator_Raise.
  - by eapply IH.
  - done.
Qed.

Lemma layout_of_Rect {A} (l : list (list A)) f g :
  Np.layout_of l = Np.Rect → f ∈ l → g ∈ l → length f = length g.
Proof.
  destruct l as [|h t]; simpl; [by intros _ ?%elem_of_nil|].
  destruct (forallb _ t) eqn:Hall; [|done]. intros _.
  assert (∀ x, x ∈ h :: t → length x = length h) as Hx.
  { intros x [->|Hin]%elem_of_cons; [done|].
    rewrite forallb_forall in Hall.
    apply Nat.eqb_eq, Hall. by apply list_elem_of_In. }
  intros Hf Hg. by rewrite (Hx f), (Hx g).
Qed.

Lemma last_elem_of {A} (l : list A) x : last l = Some x → x ∈ l.
Proof. rewrite last_lookup. apply list_elem_of_lookup_2. Qed.

(** When the comprehension has a value, it is the list of separator
    positions. *)
Lemma idx_list_Return span_texts idx :
  idx_list (textlist_of span_texts) = Return idx →
  idx = sep_positions (textlist_of span_texts).
Proof.
  unfold idx_list, sep_positions, Np.where_, separator.
  set (tl := textlist_of span_texts).
  apply idx_list_from_Return, Forall_forall. intros val Hval. split.
  - pose proof (textlist_of_nonempty span_texts) as Hne.
    rewrite Forall_forall in Hne. by apply Hne.
  - intros Hrect. destruct (last tl) as [x|] eqn:Hlast; simpl.
    + eapply layout_of_Rect; [done| |done]. by apply last_elem_of.
    + apply last_None in Hlast. rewrite Hlast in Hval. by apply elem_of_nil in Hval.
Qed.

Lemma idx_list_Raise textlist e : idx_list textlist = Raise e → e = ValueError.
Proof. apply idx_list_from_Raise. Qed.

(** ** The gate: selecting the slices of length 5 or 6 *)

Lemma take_idx_where_from {A} (P : A → Prop) `{!∀ x, Decision (P x)}
    (f : A → bool) (pre l : list A) :
  (∀ x, f x = bool_decide (P x)) →
  Np.take_idx (pre ++ l) (Np.where_from (length pre) (f <$> l))
  = Return (filter P l).
Proof.
  intros Hf. revert pre. induction l as [|x l IH]; intros pre; simpl; [done|].
  specialize (IH (pre ++ [x])).
  rewrite length_app, Nat.add_1_r, <-(assoc_L (++)) in IH. simpl in IH.
  rewrite filter_cons, Hf. case_bool_decide as HP; destruct (decide (P x)); try done.
  simpl. unfold getitem. rewrite lookup_app_r, Nat.sub_diag by done. simpl.
  unbind. change (list_fmap A bool f l) with (f <$> l).
  by rewrite IH.
Qed.

Lemma pruned_slices_list_spec (slices : list (list fragment)) :
  Np.take_idx slices (useable_data_idx (length <$> slices))
  = Return (filter gate slices).
Proof.
  unfold useable_data_idx, Np.where_. rewrite <-list_fmap_compose.
  apply (take_idx_where_from gate _ []). intros p. unfold gate; simpl.
  destruct (length p =? 5) eqn:H5, (length p =? 6) eqn:H6; simpl;
    symmetry; [apply bool_decide_eq_true..|apply bool_decide_eq_false];
    rewrite ?Nat.eqb_eq, ?Nat.eqb_neq in *; lia.
Qed.

(** ** The loop over the retained candidates *)

Lemma parse_loop_Return pruned sh ad times :
  parse_loop pruned sh ad = Return times →
  ∃ vs, Forall2 fields_of pruned vs ∧
        times = (sh ++ vs.*1, ad ++ vs.*2).
Proof.
  revert sh ad. induction pruned as [|p pruned IH]; intros sh ad; simpl.
  - intros [= <-]. exists []. split; [constructor|]. simpl. by rewrite !app_nil_r.
  - intros (v1 & H1 & (v3 & H3 & Hrest)%bind_Return)%bind_Return.
    destruct (IH _ _ Hrest) as (vs & Hvs & ->).
    exists ((v1, v3) :: vs). split; [by constructor|].
    simpl. by rewrite <-!(assoc_L (++)).
Qed.

Lemma parse_loop_Raise pruned sh ad :
  Exists fails pruned → ∃ e, parse_loop pruned sh ad = Raise e.
Proof.
  intros Hex. revert sh ad.
  induction Hex as [p pruned Hp|p pruned _ IH]; intros sh ad; simpl.
  - destruct Hp as [[e He]|[e He]].
    + rewrite He. by exists e.
    + destruct (minutes (take 5 p) 1) as [v1|e1]; [|by exists e1].
      unbind. rewrite He. by exists e.
  - destruct (minutes (take 5 p) 1) as [v1|e1]; [|by exists e1].
    destruct (minutes (take 5 p) 3) as [v3|e3]; [|by exists e3].
    apply IH.
Qed.

(** A loop that returns has gone through every record. *)
Lemma parse_loop_returns pruned sh ad :
  Forall (λ p, ¬ fails p) pruned → ∃ times, parse_loop pruned sh ad = Return times.
Proof.
  intros Hall. revert sh ad.
  induction Hall as [|p pruned Hp _ IH]; intros sh ad; simpl; [by eauto|].
  destruct (minutes (take 5 p) 1) as [v1|e1] eqn:H1.
  2:{ destruct Hp. left. eauto. }
  destruct (minutes (take 5 p) 3) as [v3|e3] eqn:H3.
  2:{ destruct Hp. right. eauto. }
  apply IH.
Qed.

(** ** The two columns *)

Lemma Forall2_compose {A B C} (P : A → B → Prop) (Q : B → C → Prop)
    (R : A → C → Prop) l k m :
  (∀ x y z, P x y → Q y z → R x z) →
  Forall2 P l k → Forall2 Q k m → Forall2 R l m.
Proof.
  intros HR HP. revert m. induction HP as [|x y l k Hxy _ IH]; intros m HQ.
  - apply Forall2_nil_inv_l in HQ as ->. constructor.
  - apply Forall2_cons_inv_l in HQ as (z & m' & Hyz & HQ & ->).
    constructor; eauto.
Qed.

(** An item of one of two columns, once in their concatenation. *)
Lemma shows_astype d1 d3 z :
  let dt := Np.promote_types d1 d3 in
  Np.shows dt (Np.astype dt (Np.astype d1 (Np.Int z))) z ∧
  Np.shows dt (Np.astype dt (Np.astype d3 (Np.Int z))) z.
Proof. destruct d1, d3; simpl; auto. Qed.

Lemma in_int64_dtype z : in_int64 z = true → Np.int_dtype z = Np.int64.
Proof. unfold in_int64, Np.int_dtype. by intros ->. Qed.

Lemma array_dtype_int64 l :
  l ≠ [] → forallb in_int64 l = true → Np.array_dtype l = Np.int64.
Proof.
  destruct l as [|z l]; [done|]. intros _ [Hz Hl]%andb_prop. simpl.
  rewrite (in_int64_dtype _ Hz). induction l as [|x l IH]; [done|].
  apply andb_prop in Hl as [Hx Hl]. simpl. rewrite (in_int64_dtype _ Hx).
  by apply IH.
Qed.

(** The two columns of the counts [vs], one pair for each record: the
    concatenation has a value, its rows show the counts, and they show
    them as integers, in an array of int64, when all the counts are in
    the range of int64. *)
Lemma two_column_array_fmap (vs : list (Z * Z)) :
  ∃ dt a, two_column_array vs.*1 vs.*2 = Return (dt, a) ∧
          Forall2 (λ v x, Np.shows dt x.1 v.1 ∧ Np.shows dt x.2 v.2) vs a ∧
          (forallb in_int64 vs.*1 = true → forallb in_int64 vs.*2 = true →
           a = (λ v, (Np.Int v.1, Np.Int v.2)) <$> vs ∧
           (vs ≠ [] → dt = Np.int64)).
Proof.
  unfold two_column_array, Np.concatenate, Np.array. simpl.
  rewrite !length_fmap, Nat.eqb_refl.
  set (d1 := Np.array_dtype vs.*1). set (d3 := Np.array_dtype vs.*2).
  eexists _, _. split; [done|]. split.
  - rewrite <-!list_fmap_compose. clearbody d1 d3.
    induction vs as [|v vs IH]; simpl; constructor; [|done].
    split; [apply (shows_astype d1 d3 v.1)|apply (shows_astype d1 d3 v.2)].
  - intros H1 H3. destruct (decide (vs = [])) as [->|Hne]; [done|].
    subst d1 d3. rewrite !array_dtype_int64; [|by destruct vs..].
    split; [|done]. rewrite <-!list_fmap_compose. clear.
    induction vs as [|v vs IH]; [done|].
    rewrite !fmap_cons. simpl. f_equal. exact IH.
Qed.

Lemma int64_fields ps vs :
  forallb
    (λ p, forallb
            (λ k, match minutes (take 5 p) k with
                  | Return v => in_int64 v
                  | Raise _ => true
                  end)
            [1; 3]) ps = true →
  Forall2 fields_of ps vs →
  forallb in_int64 vs.*1 = true ∧ forallb in_int64 vs.*2 = true.
Proof.
  intros Hall Hvs.
  induction Hvs as [|p v ps vs [H1 H3] _ IH]; [done|].
  simpl in Hall. rewrite H1, H3 in Hall.
  apply andb_prop in Hall as [[Hv1 [Hv3 _]%andb_prop]%andb_prop Hall].
  destruct (IH Hall) as [IH1 IH3]. rewrite !fmap_cons. cbn [forallb].
  by rewrite Hv1, Hv3, IH1, IH3.
Qed.

(** ** The shape of a run *)

Section Run.

Context (span_texts anchor_texts : list string) (hospital_names : bool).

(** Past the comprehension, the function is its loop over the validated
    records followed by the making of the frame and the label
    attachment. *)
Lemma import_state_info_validated idx :
  idx_list (textlist_of span_texts) = Return idx →
  import_state_info span_texts anchor_texts hospital_names =
    times ← parse_loop (validated span_texts) [] [];
    two_column_array ← two_column_array times.1 times.2;
    Return (labeled anchor_texts (retained_idx span_texts) hospital_names
              (pd_DataFrame two_column_array)).
Proof.
  intros Hidx. unfold import_state_info. fold (textlist_of span_texts).
  rewrite Hidx. apply idx_list_Return in Hidx. subst idx.
  unbind. rewrite pruned_slices_list_spec.
  destruct (parse_loop _ [] []) as [times|]; [|done].
  destruct (two_column_array _ _) as [a|]; [|done].
  unfold labeled, retained_idx, candidates.
  destruct hospital_names; [destruct (hospital_labels _ _ _)|]; done.
Qed.

(** The comprehension is the only place where a run can raise before
    the loop. *)
Lemma import_state_info_cases :
  (∃ e, import_state_info span_texts anchor_texts hospital_names = Raise e ∧
        idx_list (textlist_of span_texts) = Raise e) ∨
  (∃ idx, idx_list (textlist_of span_texts) = Return idx).
Proof.
  destruct (idx_list (textlist_of span_texts)) as [idx|e] eqn:Hidx; [by eauto|].
  left. exists e. split; [|done].
  unfold import_state_info. fold (textlist_of span_texts). by rewrite Hidx.
Qed.

(** The call raises when the loop raises, and returns when the loop
    returns: the two lists of the loop have one length, so that they can
    be put side by side, and a failure of the label attachment is
    swallowed. *)
Lemma import_state_info_loop idx :
  idx_list (textlist_of span_texts) = Return idx →
  match parse_loop (validated span_texts) [] [] with
  | Raise e => import_state_info span_texts anchor_texts hospital_names = Raise e
  | Return _ =>
      ∃ vs dt a,
        Forall2 fields_of (validated span_texts) vs ∧
        two_column_array vs.*1 vs.*2 = Return (dt, a) ∧
        import_state_info span_texts anchor_texts hospital_names
        = Return (labeled anchor_texts (retained_idx span_texts) hospital_names
                    (pd_DataFrame (dt, a)))
  end.
Proof.
  intros Hidx. rewrite (import_state_info_validated _ Hidx).
  destruct (parse_loop _ [] []) as [times|e] eqn:Hloop; [|done].
  apply parse_loop_Return in Hloop as (vs & Hvs & ->). simpl.
  destruct (two_column_array_fmap vs) as (dt & a & Ha & _).
  exists vs, dt, a. split; [done|]. split; [done|].
  unbind. by rewrite Ha.
Qed.

Lemma dtypes_labeled retained df :
  dtypes (labeled anchor_texts retained hospital_names df) = dtypes df.
Proof.
  unfold labeled. destruct hospital_names; [destruct (hospital_labels _ _ _)|]; done.
Qed.

Lemma rows_labeled retained df :
  rows (labeled anchor_texts retained hospital_names df) = rows df.
Proof.
  unfold labeled. destruct hospital_names; [destruct (hospital_labels _ _ _)|]; done.
Qed.

(** A run that returns has made its frame of the fields of the
    validated records, in order. *)
Lemma import_rows df :
  import_state_info span_texts anchor_texts hospital_names = Return df →
  ∃ vs a, Forall2 fields_of (validated span_texts) vs ∧
          two_column_array vs.*1 vs.*2 = Return (dtypes df, a) ∧
          rows df = (λ x, Row x.1 x.2) <$> a.
Proof.
  destruct import_state_info_cases as [(e & -> & _)|[idx Hidx]]; [done|].
  pose proof (import_state_info_loop _ Hidx) as Hloop.
  destruct (parse_loop _ [] []) as [times|e]; [|by rewrite Hloop].
  destruct Hloop as (vs & dt & a & Hvs & Ha & ->). intros [= <-].
  exists vs, a. by rewrite dtypes_labeled, rows_labeled.
Qed.

(** It has one row for each validated record, in order, and the row
    shows the two fields of the record: as integers when every count of
    the page is in the range of int64. *)
Lemma import_rows_fields df :
  import_state_info span_texts anchor_texts hospital_names = Return df →
  Forall2
    (λ p r, ∃ v1 v3,
       minutes (take 5 p) 1 = Return v1 ∧ minutes (take 5 p) 3 = Return v3 ∧
       Np.shows (dtypes df) (time_until_sent_home r) v1 ∧
       Np.shows (dtypes df) (time_until_admitted r) v3 ∧
       (int64_page span_texts = true → r = ints v1 v3))
    (validated span_texts) (rows df) ∧
  (int64_page span_texts = true → rows df ≠ [] → dtypes df = Np.int64).
Proof.
  intros (vs & a & Hvs & Ha & Hrows)%import_rows. rewrite Hrows.
  destruct (two_column_array_fmap vs) as (dt & a' & Ha' & Hst & Hint).
  rewrite Ha in Ha'. injection Ha' as <- <-.
  assert (int64_page span_texts = true →
          a = (λ v, (Np.Int v.1, Np.Int v.2)) <$> vs ∧
          (vs ≠ [] → dtypes df = Np.int64)) as Hint'.
  { intros Hpage. destruct (int64_fields _ _ Hpage Hvs). by apply Hint. }
  split.
  - apply Forall2_fmap_r, Forall2_same_length_lookup. split.
    { by rewrite (Forall2_length _ _ _ Hvs), (Forall2_length _ _ _ Hst). }
    intros i p [x1 x3] Hp Hx.
    destruct (Forall2_lookup_l _ _ _ _ _ Hvs Hp) as ([v1 v3] & Hv & H1 & H3).
    destruct (Forall2_lookup_lr _ _ _ _ _ _ Hst Hv Hx) as [Hs1 Hs3].
    simpl in *. exists v1, v3. do 4 (split; [done|]).
    intros Hpage. destruct (Hint' Hpage) as [Heq _].
    rewrite Heq, list_lookup_fmap, Hv in Hx. by simplify_eq/=.
  - intros Hpage Hne. destruct (Hint' Hpage) as [Heq Hdt]. apply Hdt.
    intros ->. apply Hne. by rewrite Heq.
Qed.

Lemma import_rows_length df :
  import_state_info span_texts anchor_texts hospital_names = Return df →
  length (validated span_texts) = length (rows df).
Proof.
  intros [Hrows _]%import_rows_fields. exact (Forall2_length _ _ _ Hrows).
Qed.

(** A validated record with a field that cannot be parsed makes the run
    raise. *)
Lemma import_fails :
  Exists fails (validated span_texts) →
  ∃ e, import_state_info span_texts anchor_texts hospital_names = Raise e.
Proof.
  intros Hex.
  destruct import_state_info_cases as [(e & -> & _)|[idx Hidx]]; [by eauto|].
  rewrite (import_state_info_validated _ Hidx).
  destruct (parse_loop_Raise _ [] [] Hex) as [e ->]. by exists e.
Qed.

End Run.

(** ** The two readings of a numeric field *)

Lemma str_split_space_head s : str_split " " s !! 0 = Some (before_space s).
Proof.
  induction s as [|c s IH]; simpl; [done|].
  destruct (Ascii.eqb c " "); [done|].
  destruct (str_split " " s); by simplify_eq/=.
Qed.

(** [minutes] is the hours:minutes reading when there is one, else the
    bare-minutes reading when there is one, else an exception. *)
Lemma minutes_spec tmp k f :
  tmp !! k = Some f →
  minutes tmp k =
    match hours_minutes f, bare_minutes f with
    | Some z, _ => Return z
    | None, Some z => Return z
    | None, None => Raise (if f is [] then IndexError else ValueError)
    end.
Proof.
  intros Hk. unfold minutes, getitem. rewrite Hk.
  unbind. destruct f as [|s f]; simpl; [done|].
  rewrite str_split_space_head. unfold int.
  destruct f as [|m f]; simpl.
  - destruct (int_opt s); simpl; by destruct (int_opt (before_space s)).
  - destruct (int_opt s); simpl; [destruct (int_opt m); simpl|];
      by destruct (int_opt (before_space s)).
Qed.

Lemma minutes_hours_minutes tmp k f z :
  tmp !! k = Some f → hours_minutes f = Some z → minutes tmp k = Return z.
Proof. intros Hk Hhm. by rewrite (minutes_spec _ _ _ Hk), Hhm. Qed.

Lemma minutes_reading tmp k f v :
  tmp !! k = Some f → minutes tmp k = Return v ↔ reading f = Some v.
Proof.
  intros Hk. rewrite (minutes_spec _ _ _ Hk). unfold reading.
  destruct (hours_minutes f), (bare_minutes f); split; congruence.
Qed.

Lemma validated_gate span_texts p : p ∈ validated span_texts → gate p.
Proof. unfold validated. by intros [? _]%list_elem_of_filter. Qed.

(** The field of a row, from the fragment it is read from. *)
Lemma row_field span_texts anchor_texts hospital_names df i p r k f :
  import_state_info span_texts anchor_texts hospital_names = Return df →
  validated span_texts !! i = Some p →
  rows df !! i = Some r →
  k = 1 ∨ k = 3 →
  p !! k = Some f →
  ∃ v, minutes (take 5 p) k = Return v ∧
       reading f = Some v ∧
       Np.shows (dtypes df) (field k r) v ∧
       (int64_page span_texts = true →
        dtypes df = Np.int64 ∧ field k r = Np.Int v).
Proof.
  intros Hrun Hp Hr Hk Hf.
  destruct (import_rows_fields _ _ _ _ Hrun) as [Hrows Hdt].
  destruct (Forall2_lookup_lr _ _ _ _ _ _ Hrows Hp Hr)
    as (v1 & v3 & H1 & H3 & Hs1 & Hs3 & Hint).
  assert (take 5 p !! k = Some f) as Htmp.
  { rewrite lookup_take_lt; [done|]. destruct Hk; lia. }
  assert (rows df ≠ []) as Hne.
  { intros Hnil. by rewrite Hnil in Hr. }
  destruct Hk as [-> | ->]; [exists v1|exists v3];
    (split; [done|]); (split; [by eapply minutes_reading|]);
    (split; [done|]); intros Hpage;
    (split; [by apply Hdt|]); by rewrite (Hint Hpage).
Qed.

(** ** Exceptions of a run *)

Lemma candidates_fragments span_texts p f :
  p ∈ candidates span_texts → f ∈ p → f ∈ textlist_of span_texts.
Proof.
  unfold candidates, slices_list, slice.
  intros (i & -> & _)%list_elem_of_fmap Hf.
  by apply subseteq_take, subseteq_drop in Hf.
Qed.

Lemma validated_fragments span_texts p k :
  p ∈ validated span_texts → k < 5 →
  ∃ f, p !! k = Some f ∧ take 5 p !! k = Some f ∧ f ≠ [].
Proof.
  intros Hp Hk. pose proof (validated_gate _ _ Hp) as Hgate.
  destruct (lookup_lt_is_Some_2 p k) as [f Hf]; [unfold gate in Hgate; lia|].
  exists f. split; [done|]. split; [by rewrite lookup_take_lt|].
  apply list_elem_of_filter in Hp as [_ Hp].
  pose proof (textlist_of_nonempty span_texts) as Hne.
  rewrite Forall_forall in Hne. apply Hne.
  eapply candidates_fragments; [done|]. by eapply list_elem_of_lookup_2.
Qed.

Lemma minutes_Raise tmp k f e :
  tmp !! k = Some f → f ≠ [] → minutes tmp k = Raise e → e = ValueError.
Proof.
  intros Hk Hf. rewrite (minutes_spec _ _ _ Hk).
  destruct (hours_minutes f), (bare_minutes f), f; by intros; simplify_eq.
Qed.

Lemma parse_loop_Raise_inv pruned sh ad e :
  parse_loop pruned sh ad = Raise e →
  ∃ p, p ∈ pruned ∧
       (minutes (take 5 p) 1 = Raise e ∨ minutes (take 5 p) 3 = Raise e).
Proof.
  revert sh ad. induction pruned as [|p pruned IH]; intros sh ad; simpl; [done|].
  intros [H1|(v1 & _ & [H3|(v3 & _ & Hrest)]%bind_Raise)]%bind_Raise.
  - exists p. split; [left|by left].
  - exists p. split; [left|by right].
  - destruct (IH _ _ Hrest) as (q & Hq & Hfail). exists q. split; [by right|done].
Qed.

(** Every exception of a run is a ValueError. *)
Lemma import_Raise span_texts anchor_texts hospital_names e :
  import_state_info span_texts anchor_texts hospital_names = Raise e →
  e = ValueError.
Proof.
  destruct (import_state_info_cases span_texts anchor_texts hospital_names)
    as [(e' & -> & Hidx)|[idx Hidx]].
  { intros [= <-]. by eapply idx_list_Raise. }
  pose proof (import_state_info_loop span_texts anchor_texts hospital_names
                _ Hidx) as Hrun.
  destruct (parse_loop _ [] []) as [times|e'] eqn:Hloop.
  - by destruct Hrun as (vs & dt & a & _ & _ & ->).
  - rewrite Hrun. intros [= ->].
    apply parse_loop_Raise_inv in Hloop as (p & Hp & [Hm|Hm]).
    + destruct (validated_fragments _ p 1 Hp) as (f & _ & Hf & Hne); [lia|].
      by eapply minutes_Raise.
    + destruct (validated_fragments _ p 3 Hp) as (f & _ & Hf & Hne); [lia|].
      by eapply minutes_Raise.
Qed.

(** ** The validation gate *)

(** C2: a record candidate contributes a row exactly when its fragment
    count is 5 or 6.  The rows of a run that returns are, in order, the
    two parsed fields of the candidates of length 5 or 6, as a frame of
    its dtype shows them (as integers when every count of the page is in
    the range of int64): each of these candidates has its row, no other
    candidate has one, and nothing but the length removes a candidate;
    candidates of length 4 or 7 are not among the validated records.
    The frame is the array that the two lists of these fields make. *)
Theorem length_gate span_texts anchor_texts hospital_names df :
  import_state_info span_texts anchor_texts hospital_names = Return df →
  Forall2
    (λ p r, ∃ v1 v3,
       minutes (take 5 p) 1 = Return v1 ∧ minutes (take 5 p) 3 = Return v3 ∧
       Np.shows (dtypes df) (time_until_sent_home r) v1 ∧
       Np.shows (dtypes df) (time_until_admitted r) v3 ∧
       (int64_page span_texts = true → r = ints v1 v3))
    (filter (λ p, length p = 5 ∨ length p = 6) (candidates span_texts))
    (rows df) ∧
  length (rows df)
  = length (filter (λ p, length p = 5 ∨ length p = 6) (candidates span_texts)) ∧
  (∀ p, p ∈ candidates span_texts → length p = 4 ∨ length p = 7 →
        p ∉ validated span_texts) ∧
  ∃ vs a,
    Forall2 (λ p v, minutes (take 5 p) 1 = Return v.1 ∧
                    minutes (take 5 p) 3 = Return v.2)
      (filter (λ p, length p = 5 ∨ length p = 6) (candidates span_texts)) vs ∧
    two_column_array vs.*1 vs.*2 = Return (dtypes df, a) ∧
    rows df = (λ x, Row x.1 x.2) <$> a.
Proof.
  intros Hrun.
  destruct (import_rows_fields _ _ _ _ Hrun) as [Hrows _].
  split; [exact Hrows|]. split; [|split].
  - symmetry. exact (Forall2_length _ _ _ Hrows).
  - intros p _ Hlen Hp%validated_gate. unfold gate in Hp. lia.
  - exact (import_rows _ _ _ _ Hrun).
Qed.

Lemma length_gate_witness :
  Forall2
    (λ p r, ∃ v1 v3,
       minutes (take 5 p) 1 = Return v1 ∧ minutes (take 5 p) 3 = Return v3 ∧
       Np.shows Np.int64 (time_until_sent_home r) v1 ∧
       Np.shows Np.int64 (time_until_admitted r) v3 ∧
       (int64_page er_page = true → r = ints v1 v3))
    (filter (λ p, length p = 5 ∨ length p = 6) (candidates er_page))
    [ints 150 75; ints 45 185].
Proof.
  apply (length_gate er_page [] false
           (Frame Np.int64 [ints 150 75; ints 45 185] None)).
  vm_compute. reflexivity.
Defined.

(** ** The numeric fields *)

(** C3, as stated, fails: the two columns go through [np.array] and
    [np.concatenate], and a count that int64 cannot hold changes their
    dtype.  With 153722867280912931 hours the loop computes
    9223372036854775860 minutes, its column is uint64, the other one
    int64, and the frame is float64: the field is the double 2^63, not
    60 times the hours. *)
Lemma hours_minutes_overflow_counterexample :
  validated long_wait_page
  = [[[""]; ["153722867280912931"; "0"]; ["x"]; ["1"; "15"]; ["y"]]] ∧
  int "153722867280912931" = Return 153722867280912931%Z ∧
  int "0" = Return 0%Z ∧
  import_state_info long_wait_page [] false
  = Return (Frame Np.float64
              [Row (Np.Float 9223372036854775808) (Np.Float 75)] None) ∧
  (60 * 153722867280912931 + 0)%Z ≠ 9223372036854775808%Z.
Proof. repeat split; [vm_compute; reflexivity..|lia]. Qed.

(** C3, amended: a validated record whose fragment at position 1
    (position 3) is the pair [[h; m]] with [int(h) = a] and [int(m) = b]
    has the field [60*a + b]: this is what the loop computes for the
    record, and in a run that returns the sent-home (admitted) field of
    its row shows it as the frame does by its dtype: the integer
    [60*a + b] in a frame of int64 or uint64, the double nearest to it
    in a frame of float64, one of the two in a frame of objects.  When
    every count of the page is in the range of int64 the frame is of
    int64 and the field is the integer [60*a + b]. *)
Theorem hours_minutes_field p k h m a b :
  gate p →
  k = 1 ∨ k = 3 →
  p !! k = Some [h; m] →
  int h = Return a →
  int m = Return b →
  minutes (take 5 p) k = Return (60 * a + b)%Z ∧
  ∀ span_texts anchor_texts hospital_names df i r,
    import_state_info span_texts anchor_texts hospital_names = Return df →
    validated span_texts !! i = Some p →
    rows df !! i = Some r →
    Np.shows (dtypes df) (field k r) (60 * a + b) ∧
    (int64_page span_texts = true →
     dtypes df = Np.int64 ∧ field k r = Np.Int (60 * a + b)).
Proof.
  intros Hgate Hk Hf Ha%int_Return Hb%int_Return.
  assert (hours_minutes [h; m] = Some (60 * a + b)%Z) as Hhm.
  { simpl. by rewrite Ha, Hb. }
  split.
  - apply (minutes_hours_minutes _ _ [h; m]); [|done].
    rewrite lookup_take_lt; [done|]. destruct Hk; lia.
  - intros span_texts anchor_texts hospital_names df i r Hrun Hp Hr.
    destruct (row_field _ _ _ _ _ _ _ _ _ Hrun Hp Hr Hk Hf)
      as (v & _ & Hv & Hst & Hint).
    unfold reading in Hv. rewrite Hhm in Hv. by simplify_eq.
Qed.

(** A candidate of length 5 with fragment 1 equal to [["2"; "30"]] yields
    [time_until_sent_home = 150]. *)
Lemma hours_minutes_field_witness :
  import_state_info er_page [] false
  = Return (Frame Np.int64 [ints 150 75; ints 45 185] None) ∧
  minutes (take 5 [[""]; ["2"; "30"]; ["x"]; ["1"; "15"]; ["y"]]) 1
  = Return 150%Z ∧
  time_until_sent_home (ints 150 75) = Np.Int 150.
Proof.
  split; [vm_compute; reflexivity|].
  destruct (hours_minutes_field
              [[""]; ["2"; "30"]; ["x"]; ["1"; "15"]; ["y"]] 1 "2" "30" 2%Z 30%Z)
    as [Hloop Hrun]; try (vm_compute; reflexivity).
  - vm_compute. lia.
  - lia.
  - split; [exact Hloop|].
    destruct (Hrun er_page [] false
                (Frame Np.int64 [ints 150 75; ints 45 185] None) 0 (ints 150 75))
      as [_ Hint]; [vm_compute; reflexivity..|].
    apply Hint. vm_compute. reflexivity.
Defined.

(** C10, as stated, fails for the reason C3 does: with a third part
    after 153722867280912931 hours and 0 minutes the hours:minutes
    reading is still taken, the loop computes 9223372036854775860, and
    the field of the float64 frame is the double 2^63. *)
Lemma extra_elements_overflow_counterexample :
  validated long_wait_page3
  = [[[""]; ["153722867280912931"; "0"; "x"]; ["x"]; ["1"; "15"]; ["y"]]] ∧
  minutes (take 5 [[""]; ["153722867280912931"; "0"; "x"]; ["x"]; ["1"; "15"]; ["y"]]) 1
  = Return 9223372036854775860%Z ∧
  import_state_info long_wait_page3 [] false
  = Return (Frame Np.float64
              [Row (Np.Float 9223372036854775808) (Np.Float 75)] None) ∧
  (60 * 153722867280912931 + 0)%Z ≠ 9223372036854775808%Z.
Proof. repeat split; [vm_compute; reflexivity..|lia]. Qed.

(** C10, amended: the hours:minutes reading looks at the first two
    elements of the fragment only.  A validated record whose fragment at
    position 1 (position 3) starts with [h] and [m], [int(h) = a] and
    [int(m) = b], has the field [60*a + b] whatever elements follow:
    they neither start the fallback nor raise.  The field of the row
    shows [60*a + b] as the frame does by its dtype: the integer in a
    frame of int64 or uint64, the double nearest to it in a frame of
    float64, one of the two in a frame of objects.  When every count of
    the page is in the range of int64 the frame is of int64 and the
    field is the integer [60*a + b]. *)
Theorem extra_elements_ignored p k h m extra a b :
  gate p →
  k = 1 ∨ k = 3 →
  p !! k = Some (h :: m :: extra) →
  int h = Return a →
  int m = Return b →
  minutes (take 5 p) k = Return (60 * a + b)%Z ∧
  ∀ span_texts anchor_texts hospital_names df i r,
    import_state_info span_texts anchor_texts hospital_names = Return df →
    validated span_texts !! i = Some p →
    rows df !! i = Some r →
    Np.shows (dtypes df) (field k r) (60 * a + b) ∧
    (int64_page span_texts = true →
     dtypes df = Np.int64 ∧ field k r = Np.Int (60 * a + b)).
Proof.
  intros Hgate Hk Hf Ha%int_Return Hb%int_Return.
  assert (hours_minutes (h :: m :: extra) = Some (60 * a + b)%Z) as Hhm.
  { simpl. by rewrite Ha, Hb. }
  split.
  - apply (minutes_hours_minutes _ _ (h :: m :: extra)); [|done].
    rewrite lookup_take_lt; [done|]. destruct Hk; lia.
  - intros span_texts anchor_texts hospital_names df i r Hrun Hp Hr.
    destruct (row_field _ _ _ _ _ _ _ _ _ Hrun Hp Hr Hk Hf)
      as (v & _ & Hv & Hst & Hint).
    unfold reading in Hv. rewrite Hhm in Hv. by simplify_eq.
Qed.

Lemma extra_elements_ignored_witness :
  minutes (take 5 [[""]; ["45 min"]; ["x"]; ["3"; "05"; "59"; "pm"]; ["y"]; ["flag"]]) 3
  = Return 185%Z ∧
  import_state_info [""; "45 min"; "x"; "3:05:59:pm"; "y"; "flag"; ""] [] false
  = Return (Frame Np.int64 [ints 45 185] None) ∧
  time_until_admitted (ints 45 185) = Np.Int 185.
Proof.
  destruct (extra_elements_ignored
              [[""]; ["45 min"]; ["x"]; ["3"; "05"; "59"; "pm"]; ["y"]; ["flag"]]
              3 "3" "05" ["59"; "pm"] 3%Z 5%Z)
    as [Hloop Hrun]; try (vm_compute; reflexivity).
  - vm_compute. lia.
  - lia.
  - split; [exact Hloop|]. split; [vm_compute; reflexivity|].
    destruct (Hrun [""; "45 min"; "x"; "3:05:59:pm"; "y"; "flag"; ""] [] false
                (Frame Np.int64 [ints 45 185] None) 0 (ints 45 185))
      as [_ Hint]; [vm_compute; reflexivity..|].
    apply Hint. vm_compute. reflexivity.
Defined.

(** C9: the fields of a record of length 6 are those of its prefix of
    length 5.  Inside any list of retained records, replacing a record
    of length 6 by its first five fragments, or replacing its sixth
    fragment by any other, leaves the result of the loop as it is; and
    in a run that returns, the row of a validated record of length 6
    shows the two fields that the loop produces for the first five
    fragments alone (as integers when every count of the page is in the
    range of int64).  Two pages whose validated records differ by this
    replacement only give the same frame, or the same exception. *)
Theorem sixth_fragment_ignored p :
  length p = 6 →
  (∀ before after sent_home_times admission_times,
     parse_loop (before ++ p :: after) sent_home_times admission_times
     = parse_loop (before ++ take 5 p :: after) sent_home_times admission_times) ∧
  (∀ before after sent_home_times admission_times flag,
     parse_loop (before ++ (take 5 p ++ [flag]) :: after)
       sent_home_times admission_times
     = parse_loop (before ++ p :: after) sent_home_times admission_times) ∧
  (∀ span_texts anchor_texts hospital_names df i r,
     import_state_info span_texts anchor_texts hospital_names = Return df →
     validated span_texts !! i = Some p →
     rows df !! i = Some r →
     ∃ v1 v3,
       parse_loop [take 5 p] [] [] = Return ([v1], [v3]) ∧
       Np.shows (dtypes df) (time_until_sent_home r) v1 ∧
       Np.shows (dtypes df) (time_until_admitted r) v3 ∧
       (int64_page span_texts = true → r = ints v1 v3)) ∧
  (∀ span_texts span_texts' anchor_texts idx idx' before after,
     idx_list (textlist_of span_texts) = Return idx →
     idx_list (textlist_of span_texts') = Return idx' →
     validated span_texts = before ++ p :: after →
     validated span_texts' = before ++ take 5 p :: after →
     import_state_info span_texts anchor_texts false
     = import_state_info span_texts' anchor_texts false).
Proof.
  intros Hlen.
  assert (∀ q q' before after sh ad, take 5 q = take 5 q' →
    parse_loop (before ++ q :: after) sh ad
    = parse_loop (before ++ q' :: after) sh ad) as Hq.
  { intros q q' before after sh ad Heq. revert sh ad.
    induction before as [|x before IH]; intros sh ad; simpl.
    - by rewrite Heq.
    - destruct (minutes (take 5 x) 1); [|done].
      destruct (minutes (take 5 x) 3); [|done]. apply IH. }
  assert (take 5 (take 5 p) = take 5 p) as Htake.
  { rewrite take_take. by rewrite Nat.min_id. }
  split; [|split; [|split]].
  - intros. by apply Hq.
  - intros before after sh ad flag. apply Hq.
    rewrite take_app_le by (rewrite length_take; lia). done.
  - intros span_texts anchor_texts hospital_names df i r Hrun Hp Hr.
    destruct (import_rows_fields _ _ _ _ Hrun) as [Hrows _].
    destruct (Forall2_lookup_lr _ _ _ _ _ _ Hrows Hp Hr)
      as (v1 & v3 & H1 & H3 & Hs1 & Hs3 & Hint).
    exists v1, v3. split; [|done].
    simpl. rewrite Htake, H1. unbind. by rewrite H3.
  - intros span_texts span_texts' anchor_texts idx idx' before after
      Hidx Hidx' Hv Hv'.
    rewrite (import_state_info_validated _ _ _ _ Hidx).
    rewrite (import_state_info_validated _ _ _ _ Hidx').
    rewrite Hv, Hv'. by rewrite (Hq p (take 5 p)).
Qed.

Lemma sixth_fragment_ignored_witness :
  parse_loop [[[""]; ["45 min"]; ["x"]; ["3"; "05"]; ["y"]; ["flag"]]] [] []
  = parse_loop [[[""]; ["45 min"]; ["x"]; ["3"; "05"]; ["y"]]] [] [] ∧
  (∃ v1 v3,
    parse_loop [[[""]; ["45 min"]; ["x"]; ["3"; "05"]; ["y"]]] [] []
    = Return ([v1], [v3]) ∧
    Np.shows Np.int64 (Np.Int 45) v1 ∧ Np.shows Np.int64 (Np.Int 185) v3 ∧
    (int64_page er_page = true → ints 45 185 = ints v1 v3)) ∧
  import_state_info er_page [] false
  = import_state_info
      ["junk"; ""; "2:30"; "x"; "1:15"; "y"; "";
       "45 min"; "x"; "3:05"; "y"; ""; "a"; "b"; "c"; ""] [] false.
Proof.
  destruct (sixth_fragment_ignored
              [[""]; ["45 min"]; ["x"]; ["3"; "05"]; ["y"]; ["flag"]] eq_refl)
    as (Hprefix & _ & Hrun & Hpage).
  split; [|split].
  - apply (Hprefix [] [] [] []).
  - apply (Hrun er_page [] false
             (Frame Np.int64 [ints 150 75; ints 45 185] None) 1
             (ints 45 185)); vm_compute; reflexivity.
  - apply (Hpage er_page
             ["junk"; ""; "2:30"; "x"; "1:15"; "y"; "";
              "45 min"; "x"; "3:05"; "y"; ""; "a"; "b"; "c"; ""]
             [] [1; 6; 12; 16; 23] [1; 6; 11; 15]
             [[[""]; ["2"; "30"]; ["x"]; ["1"; "15"]; ["y"]]] []);
      vm_compute; reflexivity.
Defined.

(** C5: a validated record whose fragment at position 1 or 3 has
    neither the hours:minutes reading nor the bare-minutes reading makes
    the whole call raise (a ValueError, from [int]): no frame is
    returned, whatever the other records are and whether labels were
    asked for or not. *)
Theorem malformed_field_fails span_texts anchor_texts hospital_names i p k f :
  validated span_texts !! i = Some p →
  k = 1 ∨ k = 3 →
  p !! k = Some f →
  hours_minutes f = None →
  bare_minutes f = None →
  import_state_info span_texts anchor_texts hospital_names = Raise ValueError.
Proof.
  intros Hp%list_elem_of_lookup_2 Hk Hf Hhm Hbare.
  assert (fails p) as Hfails.
  { assert (take 5 p !! k = Some f) as Htmp.
    { rewrite lookup_take_lt; [done|]. destruct Hk; lia. }
    pose proof (minutes_spec _ _ _ Htmp) as Hm. rewrite Hhm, Hbare in Hm.
    destruct Hk as [-> | ->]; [left|right]; eauto. }
  destruct (import_fails span_texts anchor_texts hospital_names) as [e He].
  { apply Exists_exists. eauto. }
  rewrite He. f_equal. by eapply import_Raise.
Qed.

Lemma malformed_field_fails_witness :
  import_state_info
    [""; "2:30"; "x"; "1:15"; "y"; ""; "n/a"; "x"; "3:05"; "y"; ""] [] false
  = Raise ValueError.
Proof.
  apply (malformed_field_fails _ [] false
           1 [[""]; ["n/a"]; ["x"]; ["3"; "05"]; ["y"]] 1 ["n/a"]);
    first [lia | vm_compute; reflexivity].
Defined.

(** ** The fallback *)

(** C4, as stated, fails: with a tab after the number the hours:minutes
    reading raises (ValueError from [int]) and the first
    whitespace-delimited token, ["45"], is the integer 45, but the field
    is not 45: the fallback splits at the space character only, so
    [int] gets the whole text and the call raises. *)
Lemma whitespace_token_counterexample :
  validated [""; tab_minutes; "x"; "1:15"; "y"; ""]
  = [[[""]; [tab_minutes]; ["x"]; ["1"; "15"]; ["y"]]] ∧
  hours_minutes [tab_minutes] = None ∧
  first_whitespace_token tab_minutes = "45" ∧
  int (first_whitespace_token tab_minutes) = Return 45%Z ∧
  minutes [[""]; [tab_minutes]; ["x"]; ["1"; "15"]; ["y"]] 1 = Raise ValueError ∧
  import_state_info [""; tab_minutes; "x"; "1:15"; "y"; ""] [] false
  = Raise ValueError.
Proof. repeat split; vm_compute; reflexivity. Qed.

(** C4, amended: when the hours:minutes reading of the fragment at
    position 1 (position 3) of a validated record raises, its last
    element missing or one of the two not an integer, the field is
    obtained by the fallback, [int] of the text of the first element
    before its first space character.  The field is computed this way
    whether or not [int] accepts the token, and in a run that returns
    the field of the row shows the count as the frame does by its dtype
    (the integer in a frame of int64 or uint64, the double nearest to it
    in a frame of float64, one of the two in a frame of objects): as the
    integer when every count of the page is in the range of int64. *)
Theorem fallback_field span_texts anchor_texts hospital_names df i p r k s rest :
  import_state_info span_texts anchor_texts hospital_names = Return df →
  validated span_texts !! i = Some p →
  rows df !! i = Some r →
  k = 1 ∨ k = 3 →
  p !! k = Some (s :: rest) →
  hours_minutes (s :: rest) = None →
  str_split " " s !! 0 = Some (before_space s) ∧
  minutes (take 5 p) k = int (before_space s) ∧
  ∃ v, int (before_space s) = Return v ∧
       Np.shows (dtypes df) (field k r) v ∧
       (int64_page span_texts = true → field k r = Np.Int v).
Proof.
  intros Hrun Hp Hr Hk Hf Hhm.
  destruct (row_field _ _ _ _ _ _ _ _ _ Hrun Hp Hr Hk Hf)
    as (v & Hm & Hv & Hst & Hint).
  unfold reading in Hv. rewrite Hhm in Hv. simpl in Hv.
  apply int_Return in Hv.
  split; [apply str_split_space_head|].
  split; [by rewrite Hm, Hv|].
  exists v. split; [done|]. split; [done|]. intros Hpage. by apply Hint.
Qed.

(** A candidate of length 5 with fragment 1 equal to [["45 min"]] yields
    [time_until_sent_home = 45]. *)
Lemma fallback_field_witness :
  str_split " " "45 min" !! 0 = Some "45" ∧
  minutes (take 5 [[""]; ["45 min"]; ["x"]; ["3"; "05"]; ["y"]; ["flag"]]) 1
  = int "45" ∧
  ∃ v, int "45" = Return v ∧
       Np.shows Np.int64 (time_until_sent_home (ints 45 185)) v ∧
       (int64_page er_page = true →
        time_until_sent_home (ints 45 185) = Np.Int v).
Proof.
  apply (fallback_field er_page [] false
           (Frame Np.int64 [ints 150 75; ints 45 185] None)
           1 [[""]; ["45 min"]; ["x"]; ["3"; "05"]; ["y"]; ["flag"]] (ints 45 185)
           1 "45 min" []); first [lia | vm_compute; reflexivity].
Defined.

(** ** Sign of the fields *)

Lemma digit_val_nonneg c d : digit_val c = Some d → (0 ≤ d)%Z.
Proof.
  unfold digit_val. destruct (find _ _); simpl; intros; simplify_eq. lia.
Qed.

Lemma digits_nonneg s acc us z :
  (0 ≤ acc)%Z → digits s acc us = Some z → (0 ≤ z)%Z.
Proof.
  revert acc us. induction s as [|c s IH]; intros acc us Hacc; simpl.
  - destruct us; [done|]. by intros [= <-].
  - destruct (digit_val c) as [d|] eqn:Hd.
    + apply digit_val_nonneg in Hd. apply IH. lia.
    + destruct us; [done|]. destruct (c =? 95)%N; [by apply IH|].
      destruct (is_space c && all_space s); [|done]. by intros [= <-].
Qed.

Lemma unsigned_nonneg s z : unsigned s = Some z → (0 ≤ z)%Z.
Proof.
  destruct s as [|c s]; simpl; [done|].
  destruct (digit_val c) as [d|] eqn:Hd; [|done].
  apply digits_nonneg. by eapply digit_val_nonneg.
Qed.

(** [int] gives a negative number only for a text with a minus sign
    before the digits. *)
Lemma int_opt_negative s z :
  int_opt s = Some z → (z < 0)%Z → minus_signed s = true.
Proof.
  unfold int_opt, minus_signed.
  destruct (lstrip (code_points s)) as [|c rest]; [done|].
  destruct (c =? 45)%N; [done|].
  destruct (c =? 43)%N; intros H%unsigned_nonneg; lia.
Qed.

Lemma reading_negative f v :
  reading f = Some v → (v < 0)%Z → negative_written f = true.
Proof.
  unfold reading, negative_written.
  destruct f as [|h [|m rest]]; simpl; [done| |].
  - intros H. by apply int_opt_negative.
  - destruct (int_opt h) as [a|] eqn:Ha; simpl.
    + destruct (int_opt m) as [b|] eqn:Hb; simpl.
      * intros [= <-] Hneg. apply orb_true_iff.
        destruct (decide (a < 0)%Z); [left|right];
          eapply int_opt_negative; [done|lia|done|lia].
      * intros H. by apply int_opt_negative.
    + intros H. by apply int_opt_negative.
Qed.

(** The double nearest to an integer has the sign of the integer. *)
Lemma to_double_nonneg z : (0 ≤ Np.to_double z)%Z ↔ (0 ≤ z)%Z.
Proof.
  unfold Np.to_double.
  destruct (Z.log2 (Z.abs z) - 52 <=? 0)%Z eqn:He; [done|].
  apply Z.leb_gt in He.
  set (e := (Z.log2 (Z.abs z) - 52)%Z) in *.
  set (q := Z.shiftr (Z.abs z) e).
  assert (0 < q)%Z as Hq.
  { unfold q. rewrite Z.shiftr_div_pow2 by lia.
    apply Z.div_str_pos. split; [apply Z.pow_pos_nonneg; lia|].
    assert (0 < Z.abs z)%Z as Hpos.
    { destruct (Z.abs z) eqn:Habs; simpl in *; lia. }
    pose proof (Z.log2_spec _ Hpos) as [Hlo _].
    etrans; [|exact Hlo]. apply Z.pow_le_mono_r; lia. }
  match goal with |- context [Z.shiftl ?q' e] => set (q1 := q') end.
  assert (0 < Z.shiftl q1 e)%Z as Hs.
  { rewrite Z.shiftl_mul_pow2 by lia.
    apply Z.mul_pos_pos; [|apply Z.pow_pos_nonneg; lia].
    unfold q1. destruct (_ || _); lia. }
  destruct z; simpl; lia.
Qed.

Lemma shows_nonneg dt x v :
  Np.shows dt x v → (0 ≤ Np.value x)%Z ↔ (0 ≤ v)%Z.
Proof.
  destruct dt; simpl; intros H; [| | |destruct H as [H|H]];
    subst x; simpl; first [done | apply to_double_nonneg].
Qed.

(** C7, as stated, fails: [int] reads a sign, so a page whose sent-home
    time is written [-1:30] gives the field [60*(-1) + 30 = -30]. *)
Lemma negative_field_counterexample :
  validated [""; "-1:30"; "x"; "1:15"; "y"; ""]
  = [[[""]; ["-1"; "30"]; ["x"]; ["1"; "15"]; ["y"]]] ∧
  import_state_info [""; "-1:30"; "x"; "1:15"; "y"; ""] [] false
  = Return (Frame Np.int64 [ints (-30) 75] None) ∧
  ¬ (0 ≤ Np.value (time_until_sent_home (ints (-30) 75)))%Z.
Proof. split; [|split]; [vm_compute; reflexivity..|]. simpl. lia. Qed.

(** C7, amended: in a run that returns, every field of every row shows
    the number read from its fragment, the hours:minutes count or else
    the bare minutes, as the frame does by its dtype, and as an integer
    when every count of the page is in the range of int64.  The field is
    non-negative exactly when this number is, and the number is
    non-negative whenever no minus sign stands before one of the numbers
    read: a minus sign elsewhere in the fragment, or one that the other
    number outweighs, gives no negative field. *)
Theorem fields_nonnegative span_texts anchor_texts hospital_names df :
  import_state_info span_texts anchor_texts hospital_names = Return df →
  Forall2
    (λ p r, ∀ k f, k = 1 ∨ k = 3 → p !! k = Some f →
       ∃ v, reading f = Some v ∧
            Np.shows (dtypes df) (field k r) v ∧
            (int64_page span_texts = true → field k r = Np.Int v) ∧
            ((0 ≤ Np.value (field k r))%Z ↔ (0 ≤ v)%Z) ∧
            (negative_written f = false → (0 ≤ v)%Z))
    (validated span_texts) (rows df).
Proof.
  intros Hrun. apply Forall2_same_length_lookup. split.
  { by eapply import_rows_length. }
  intros i p r Hp Hr k f Hk Hf.
  destruct (row_field _ _ _ _ _ _ _ _ _ Hrun Hp Hr Hk Hf)
    as (v & _ & Hv & Hst & Hint).
  exists v. split; [done|]. split; [done|].
  split; [intros Hpage; by destruct (Hint Hpage)|].
  split; [by eapply shows_nonneg|].
  intros Hw. destruct (decide (0 ≤ v)%Z) as [|Hneg]; [done|].
  rewrite (reading_negative f v) in Hw; [done..|lia].
Qed.

(** A minus sign after the number, or before minutes that the hours
    outweigh, leaves the field non-negative. *)
Lemma fields_nonnegative_witness :
  Forall2
    (λ p r, ∀ k f, k = 1 ∨ k = 3 → p !! k = Some f →
       ∃ v, reading f = Some v ∧
            Np.shows Np.int64 (field k r) v ∧
            (int64_page [""; "45 min - est"; "x"; "1:-5"; "y"; ""] = true →
             field k r = Np.Int v) ∧
            ((0 ≤ Np.value (field k r))%Z ↔ (0 ≤ v)%Z) ∧
            (negative_written f = false → (0 ≤ v)%Z))
    (validated [""; "45 min - est"; "x"; "1:-5"; "y"; ""])
    [ints 45 55].
Proof.
  apply (fields_nonnegative [""; "45 min - est"; "x"; "1:-5"; "y"; ""] [] false
           (Frame Np.int64 [ints 45 55] None)).
  vm_compute. reflexivity.
Defined.

(** ** Separator positions and the final fragment *)

(** The separator positions of the code are those of the specification
    as long as no fragment before the last one has the value of the last
    one without being [['']]. *)
Lemma sep_positions_agree (textlist : list fragment) :
  (∀ i val, textlist !! i = Some val → S i < length textlist →
            val = default [] (last textlist) → val = [""]) →
  sep_positions textlist = sep_positions_spec textlist.
Proof.
  intros Hlast. unfold sep_positions, sep_positions_spec. f_equal.
  apply list_eq. intros i. rewrite list_lookup_fmap, list_lookup_imap.
  unfold fragment in *.
  destruct (textlist !! i) as [val|] eqn:Hval; simpl; [|done]. f_equal.
  pose proof (lookup_lt_Some _ _ _ Hval) as Hi. unfold separator, fragment in *.
  destruct (decide (S i = length textlist)) as [Hend|Hmid].
  - assert (last textlist = Some val) as ->.
    { rewrite last_lookup, <-Hend. done. }
    simpl. rewrite (bool_decide_eq_true_2 (val = val)) by done.
    rewrite orb_true_r. symmetry. apply bool_decide_eq_true_2. by right.
  - case_bool_decide as H1; simpl.
    + symmetry. apply bool_decide_eq_true_2. by left.
    + case_bool_decide as H2.
      * destruct H1. eapply Hlast; [done|lia|done].
      * symmetry. apply bool_decide_eq_false_2. intros [?|?]; done.
Qed.

(** C1: the comprehension compares every fragment with the {e value} of
    the last one, so a fragment equal to the last fragment is a separator
    position wherever it stands.  On this page the specification has the
    single separator position 5, hence no slice and no row, and the code
    has the positions 0 and 5, one slice of length 5 and one row. *)
Theorem final_fragment_compared_by_value :
  let span_texts := ["END"; "2:30"; "B"; "1:15"; "C"; "END"] in
  sep_positions_spec (textlist_of span_texts) = [5] ∧
  idx_list (textlist_of span_texts) = Return [0; 5] ∧
  candidates span_texts = [[["END"]; ["2"; "30"]; ["B"]; ["1"; "15"]; ["C"]]] ∧
  import_state_info span_texts [] false = Return (Frame Np.int64 [ints 150 75] None).
Proof. repeat split; vm_compute; reflexivity. Qed.

(** ** Hospital names *)

Lemma take_idx_out_of_bounds {A} (a : list A) idx i :
  i ∈ idx → length a ≤ i → Np.take_idx a idx = Raise IndexError.
Proof.
  intros Hi Hlen. induction Hi as [i idx|i j idx _ IH]; simpl.
  - unfold getitem. by rewrite lookup_ge_None_2.
  - unfold getitem. destruct (a !! j); [|done].
    unbind. by rewrite IH.
Qed.

Lemma length_slice_to_end {A} (l : list A) i j :
  length (slice_to_end l i j) = length l - j - i.
Proof. unfold slice_to_end, slice. rewrite length_take, length_drop. lia. Qed.

(** The label window [namelist[9:-12]] is shorter than a shifted index:
    the fancy indexing raises. *)
Lemma hospital_labels_short anchor_texts retained nrows i m :
  Np.min_ retained = Return m →
  i ∈ retained →
  length anchor_texts - 21 ≤ i - m →
  hospital_labels anchor_texts retained nrows = Raise IndexError.
Proof.
  intros Hm Hi Hshort. unfold hospital_labels, align_labels. rewrite Hm.
  unbind.
  rewrite (take_idx_out_of_bounds _ _ (i - m)); [done| |].
  - apply list_elem_of_fmap. eauto.
  - rewrite length_slice_to_end, length_fmap. lia.
Qed.

(** The call with labels, from the call without. *)
Lemma import_labeled span_texts anchor_texts df :
  import_state_info span_texts anchor_texts false = Return df →
  index df = None ∧
  import_state_info span_texts anchor_texts true =
    match hospital_labels anchor_texts (retained_idx span_texts)
            (length (rows df)) with
    | Return labels => Return (Frame (dtypes df) (rows df) (Some labels))
    | Raise _ => Return df
    end.
Proof.
  destruct (import_state_info_cases span_texts anchor_texts false)
    as [(e' & -> & _)|[idx Hidx]]; [done|].
  rewrite !(import_state_info_validated _ _ _ _ Hidx). unbind.
  destruct (parse_loop _ [] []) as [times|]; [|done].
  destruct (two_column_array _ _) as [a|]; [|done].
  unfold labeled. simpl. intros [= <-]. split; [done|]. simpl.
  by destruct (hospital_labels _ _ _).
Qed.

(** C6: when labels are asked for, any exception of the alignment is
    swallowed.  If the call without labels returns [df], the call with
    labels returns too, with the same rows; it returns [df] itself, with
    its default index, whenever the alignment raises, and the alignment
    does raise when the anchor stream is too short for the range of the
    retained indices (a shifted index falls outside [namelist[9:-12]]). *)
Theorem label_failure_swallowed span_texts anchor_texts df :
  import_state_info span_texts anchor_texts false = Return df →
  index df = None ∧
  (∃ df', import_state_info span_texts anchor_texts true = Return df' ∧
          dtypes df' = dtypes df ∧ rows df' = rows df) ∧
  (∀ e, hospital_labels anchor_texts (retained_idx span_texts)
          (length (rows df)) = Raise e →
        import_state_info span_texts anchor_texts true = Return df) ∧
  (∀ i m, Np.min_ (retained_idx span_texts) = Return m →
          i ∈ retained_idx span_texts →
          length anchor_texts - 21 ≤ i - m →
          import_state_info span_texts anchor_texts true = Return df).
Proof.
  intros Hrun. destruct (import_labeled _ _ _ Hrun) as [Hindex Hlab].
  split; [done|]. split; [|split].
  - rewrite Hlab. destruct (hospital_labels _ _ _); eauto.
  - intros e He. by rewrite Hlab, He.
  - intros i m Hm Hi Hshort.
    by rewrite Hlab, (hospital_labels_short _ _ _ i m).
Qed.

Lemma label_failure_swallowed_witness :
  import_state_info er_page ["Home"; "About"; "St. Mary"] true
  = Return (Frame Np.int64 [ints 150 75; ints 45 185] None).
Proof.
  destruct (label_failure_swallowed er_page ["Home"; "About"; "St. Mary"]
              (Frame Np.int64 [ints 150 75; ints 45 185] None) eq_refl)
    as (_ & _ & Hswallow & _).
  apply (Hswallow IndexError). reflexivity.
Defined.

(** ** The run with its objects *)

Lemma fill_spec id l0 texts pre post :
  id = length pre →
  Store.for_each texts (λ s, Store.append_frag id (str_split ":" s))
    (pre ++ Store.FragList l0 :: post)
  = (Return (), pre ++ Store.FragList (l0 ++ (str_split ":" <$> texts)) :: post).
Proof.
  intros ->. revert l0. induction texts as [|s texts IH]; intros l0; simpl.
  - by rewrite app_nil_r.
  - cbv [mbind Store.M_bind Store.append_frag].
    rewrite (alter_app_r_alt _ pre) by done. rewrite Nat.sub_diag. simpl.
    rewrite IH. by rewrite <-(assoc_L (++)).
Qed.

Lemma parse_spec id1 id2 pruned pre sh ad post :
  id1 = length pre → id2 = S (length pre) →
  ∃ sh' ad',
    Store.for_each pruned (λ p,
      let tmp := take 5 p in
      v ← Store.lift (minutes tmp 1);
      Store.append_int id1 v;;
      w ← Store.lift (minutes tmp 3);
      Store.append_int id2 w)
      (pre ++ Store.IntList sh :: Store.IntList ad :: post)
    = (match parse_loop pruned sh ad with
       | Return _ => Return ()
       | Raise e => Raise e
       end,
       pre ++ Store.IntList sh' :: Store.IntList ad' :: post) ∧
    ∀ times, parse_loop pruned sh ad = Return times → times = (sh', ad').
Proof.
  intros -> ->.
  revert sh ad. induction pruned as [|p pruned IH]; intros sh ad; simpl.
  - exists sh, ad. split; [done|]. by intros ? [= <-].
  - cbv [mbind Store.M_bind result_bind Store.lift Store.append_int].
    destruct (minutes (take 5 p) 1) as [v|e].
    2:{ exists sh, ad. by split. }
    rewrite (alter_app_r_alt _ pre) by done. rewrite Nat.sub_diag. simpl.
    destruct (minutes (take 5 p) 3) as [w|e].
    2:{ exists (sh ++ [v]), ad. by split. }
    rewrite (alter_app_r_alt _ pre) by lia.
    replace (S (length pre) - length pre) with 1 by lia. simpl.
    destruct (IH (sh ++ [v]) (ad ++ [w])) as (sh' & ad' & Hrun & Hret).
    exists sh', ad'. split; [|done].
    exact Hrun.
Qed.

Lemma lookup_new (σ new : Store.store) k :
  (σ ++ new) !! (length σ + k) = new !! k.
Proof. rewrite lookup_app_r by lia. f_equal. lia. Qed.

Lemma alter_new f (σ new : Store.store) k :
  alter f (length σ + k) (σ ++ new) = σ ++ alter f k new.
Proof. apply alter_app_r. Qed.

(** The result of a run is the value of [import_state_info], whatever
    the store it starts from, and the run only adds objects to the
    store. *)
Lemma run_spec span_texts anchor_texts hospital_names σ :
  ∃ new,
    Store.import_state_info span_texts anchor_texts hospital_names σ
    = (import_state_info span_texts anchor_texts hospital_names, σ ++ new).
Proof.
  unfold Store.import_state_info, import_state_info.
  cbv [mbind Store.M_bind Store.alloc Store.get_frags Store.lift].
  rewrite (fill_spec _ [] _ σ []) by done. simpl.
  rewrite !(list_lookup_middle σ [] _ (length σ) eq_refl).
  set (tl := str_split ":" <$> span_texts).
  destruct (idx_list tl) as [idx|e]; [|by eexists].
  cbv [result_bind].
  set (useable := useable_data_idx _).
  destruct (Np.take_idx _ _) as [pruned|e]; [|by eexists].
  destruct (parse_spec (length (σ ++ [Store.FragList tl]))
              (length ((σ ++ [Store.FragList tl]) ++ [Store.IntList []]))
              pruned (σ ++ [Store.FragList tl]) [] [] [])
    as (sh & ad & Hrun & Hret).
  { done. }
  { rewrite !length_app. simpl. lia. }
  cbv [mbind Store.M_bind Store.lift] in Hrun.
  rewrite <-!(assoc_L (++)) in *. simpl in *. rewrite Hrun. clear Hrun.
  destruct (parse_loop pruned [] []) as [times|e]; [|by eexists].
  rewrite (Hret _ eq_refl). clear Hret. simpl.
  rewrite !length_app. simpl.
  rewrite (lookup_new σ _ 1), (lookup_new σ _ 2). simpl.
  destruct (two_column_array sh ad) as [a|e]; [|by eexists].
  set (df := pd_DataFrame a).
  rewrite <-(assoc_L (++)). simpl.
  destruct hospital_names; simpl.
  - unfold Store.try_pass, hospital_labels. fold tl.
    rewrite (fill_spec _ [] _ _ []) by done. simpl.
    rewrite length_app, <-(assoc_L (++)). simpl.
    rewrite (lookup_new σ _ 4), (lookup_new σ _ 3). simpl.
    destruct (align_labels _ _ _) as [labels|e]; simpl.
    + unfold Store.get_frame. rewrite alter_new, lookup_new. simpl. by eexists.
    + unfold Store.get_frame. rewrite lookup_new. simpl. by eexists.
  - unfold Store.get_frame. rewrite lookup_new. simpl. by eexists.
Qed.

(** Without labels the anchor stream is not looked at. *)
Lemma import_unlabeled span_texts anchor_texts anchor_texts' :
  import_state_info span_texts anchor_texts false
  = import_state_info span_texts anchor_texts' false.
Proof. reflexivity. Qed.

(** C8: the parser is deterministic and free of side effects.  Two runs
    on the same span stream, and on the same anchor stream when labels
    are asked for, return the same result whatever objects exist when
    each run starts; and a run leaves every object that existed before
    it as it was: the lists it appends to and the frame whose index it
    sets are objects it has created itself. *)
Theorem deterministic_and_pure span_texts anchor_texts anchor_texts'
    hospital_names σ σ' :
  (hospital_names = true → anchor_texts = anchor_texts') →
  (Store.import_state_info span_texts anchor_texts hospital_names σ).1
  = (Store.import_state_info span_texts anchor_texts' hospital_names σ').1 ∧
  σ `prefix_of` (Store.import_state_info span_texts anchor_texts hospital_names σ).2.
Proof.
  intros Hanchors.
  destruct (run_spec span_texts anchor_texts hospital_names σ) as [new ->].
  destruct (run_spec span_texts anchor_texts' hospital_names σ') as [new' ->].
  simpl. split; [|by exists new].
  destruct hospital_names; [by rewrite Hanchors|apply import_unlabeled].
Qed.

Lemma deterministic_and_pure_witness :
  (Store.import_state_info er_page ["Home"] false
     [Store.FrameObj (Frame Np.int64 [ints 122 247] None)]).1
  = (Store.import_state_info er_page ["About"; "Contact"] false []).1 ∧
  [Store.FrameObj (Frame Np.int64 [ints 122 247] None)]
    `prefix_of`
    (Store.import_state_info er_page ["Home"] false
       [Store.FrameObj (Frame Np.int64 [ints 122 247] None)]).2.
Proof.
  apply (deterministic_and_pure er_page ["Home"] ["About"; "Contact"] false).
  intros Hnames. discriminate Hnames.
Defined.

(** * Further properties of [import_state_info] *)

(** ** Positions of [np.where] *)

Lemma elem_of_where_from i mask j :
  j ∈ Np.where_from i mask ↔ i ≤ j ∧ mask !! (j - i) = Some true.
Proof.
  revert i. induction mask as [|b mask IH]; intros i; simpl.
  - rewrite elem_of_nil, lookup_nil. split; [done|by intros [_ ?]].
  - assert (∀ k, S i ≤ k → (b :: mask) !! (k - i) = mask !! (k - S i)) as Hshift.
    { intros k Hk. by replace (k - i) with (S (k - S i)) by lia. }
    destruct b.
    + rewrite elem_of_cons, IH. split.
      * intros [->|[Hj Hm]]; [by rewrite Nat.sub_diag|].
        split; [lia|]. by rewrite Hshift.
      * intros [Hj Hm]. destruct (decide (j = i)) as [->|Hne]; [by left|].
        right. split; [lia|]. rewrite <-Hshift; [done|lia].
    + rewrite IH. split.
      * intros [Hj Hm]. split; [lia|]. by rewrite Hshift.
      * intros [Hj Hm]. destruct (decide (j = i)) as [->|Hne].
        { by rewrite Nat.sub_diag in Hm. }
        split; [lia|]. rewrite <-Hshift; [done|lia].
Qed.

Lemma where_from_sorted i mask : StronglySorted lt (Np.where_from i mask).
Proof.
  revert i. induction mask as [|b mask IH]; intros i; simpl; [constructor|].
  destruct b; [|apply IH]. constructor; [apply IH|].
  apply Forall_forall. intros j [Hj _]%elem_of_where_from. lia.
Qed.

(** ** Slices between sorted positions *)

Lemma slices_list_cons textlist a b idx :
  slices_list textlist (a :: b :: idx)
  = slice textlist a b :: slices_list textlist (b :: idx).
Proof.
  unfold slices_list. simpl. rewrite Nat.sub_0_r. f_equal.
  rewrite <-fmap_S_seq, <-list_fmap_compose. by apply list_fmap_ext.
Qed.

Lemma slice_app {A} (l : list A) a b c :
  a ≤ b → b ≤ c → slice l a b ++ slice l b c = slice l a c.
Proof.
  intros Hab Hbc. unfold slice.
  replace (drop b l) with (drop (b - a) (drop a l)).
  - rewrite take_take_drop. f_equal. lia.
  - rewrite drop_drop. f_equal. lia.
Qed.

Lemma concat_slices_list textlist a idx :
  StronglySorted lt (a :: idx) →
  concat (slices_list textlist (a :: idx))
  = slice textlist a (default a (last (a :: idx))).
Proof.
  revert a. induction idx as [|b idx IH]; intros a Hsorted.
  - unfold slices_list, slice. simpl. by rewrite Nat.sub_diag.
  - rewrite slices_list_cons. simpl concat.
    apply StronglySorted_inv in Hsorted as [Hsorted Hall].
    rewrite IH by done. rewrite last_cons_cons.
    assert (b ≤ default b (last (b :: idx))) as Hb.
    { destruct (last (b :: idx)) as [c|] eqn:Hlast; simpl; [|lia].
      apply last_Some_elem_of in Hlast. apply elem_of_cons in Hlast as [->|Hc]; [lia|].
      apply StronglySorted_inv in Hsorted as [_ Hall'].
      rewrite Forall_forall in Hall'. specialize (Hall' _ Hc). lia. }
    assert (default a (last (b :: idx)) = default b (last (b :: idx))) as ->.
    { destruct (last (b :: idx)) eqn:Hlast; [done|]. by apply last_None in Hlast. }
    apply slice_app; [|done].
    apply Forall_cons in Hall as [Hab _]. lia.
Qed.

Lemma sorted_lookup_lt (l : list nat) i j a b :
  StronglySorted lt l → i < j → l !! i = Some a → l !! j = Some b → a < b.
Proof.
  intros Hsorted. revert i j. induction Hsorted as [|x l _ IH Hall]; intros i j Hij Ha Hb.
  - by rewrite lookup_nil in Ha.
  - destruct j as [|j]; [lia|]. simpl in Hb. destruct i as [|i]; simpl in Ha.
    + simplify_eq. rewrite Forall_forall in Hall.
      apply Hall. by eapply list_elem_of_lookup_2.
    + eapply (IH i j); [lia|done..].
Qed.

Lemma sorted_last_max (l : list nat) z y :
  StronglySorted lt l → last l = Some z → y ∈ l → y ≤ z.
Proof.
  intros Hsorted Hlast [i Hi]%list_elem_of_lookup_1.
  rewrite last_lookup in Hlast.
  pose proof (lookup_lt_Some _ _ _ Hi) as Hlt.
  destruct (decide (i = pred (length l))) as [->|Hne]; [by simplify_eq|].
  assert (y < z); [|lia]. eapply (sorted_lookup_lt l i (pred (length l))); [done|lia|done..].
Qed.

Lemma slices_list_lookup textlist idx k p :
  slices_list textlist idx !! k = Some p →
  ∃ a b, idx !! k = Some a ∧ idx !! S k = Some b ∧ p = slice textlist a b.
Proof.
  unfold slices_list. rewrite list_lookup_fmap.
  destruct (seq 0 (length idx - 1) !! k) as [k'|] eqn:Hk; [|done].
  apply lookup_seq in Hk as [-> Hk]. simpl. intros [= <-].
  destruct (lookup_lt_is_Some_2 idx k) as [a Ha]; [lia|].
  destruct (lookup_lt_is_Some_2 idx (S k)) as [b Hb]; [lia|].
  exists a, b. split; [done|]. split; [done|].
  by rewrite (list_lookup_total_correct _ _ _ Ha), (list_lookup_total_correct _ _ _ Hb).
Qed.

(** ** Separator positions of a page *)

Lemma elem_of_sep_positions (textlist : list fragment) j :
  j ∈ sep_positions textlist ↔
  ∃ val, textlist !! j = Some val ∧ separator textlist val = true.
Proof.
  unfold sep_positions, Np.where_. rewrite elem_of_where_from, Nat.sub_0_r.
  rewrite list_lookup_fmap. unfold fragment in *. split.
  - intros [_ Hm]. destruct (textlist !! j) as [val|]; [|done].
    exists val. split; [done|]. by simplify_eq/=.
  - intros (val & -> & Hsep). split; [lia|]. simpl. by rewrite Hsep.
Qed.

Lemma sep_positions_sorted textlist : StronglySorted lt (sep_positions textlist).
Proof. apply where_from_sorted. Qed.

Lemma sep_positions_last (textlist : list fragment) :
  textlist ≠ [] → last (sep_positions textlist) = Some (length textlist - 1).
Proof.
  intros Hne.
  assert (length textlist - 1 ∈ sep_positions textlist) as Hin.
  { apply elem_of_sep_positions.
    destruct (last textlist) as [val|] eqn:Hlast; [|by apply last_None in Hlast].
    exists val. split.
    - rewrite last_lookup in Hlast. by rewrite Nat.sub_1_r.
    - unfold separator. unfold fragment in *. rewrite Hlast. simpl.
      rewrite (bool_decide_eq_true_2 (val = val)) by done. apply orb_true_r. }
  destruct (last (sep_positions textlist)) as [z|] eqn:Hlast.
  - f_equal. apply Nat.le_antisymm.
    + apply last_Some_elem_of in Hlast.
      apply elem_of_sep_positions in Hlast as (val & Hval%lookup_lt_Some & _). lia.
    + eapply sorted_last_max; [apply sep_positions_sorted|done..].
  - apply last_None in Hlast. rewrite Hlast in Hin. by apply elem_of_nil in Hin.
Qed.

(** The candidates cover the page from its first separator to its last
    fragment. *)
Lemma candidates_concat span_texts :
  span_texts ≠ [] →
  ∃ first,
    head (sep_positions (textlist_of span_texts)) = Some first ∧
    (∀ j val, j < first → textlist_of span_texts !! j = Some val →
              separator (textlist_of span_texts) val = false) ∧
    concat (candidates span_texts)
    = slice (textlist_of span_texts) first (length span_texts - 1).
Proof.
  intros Hne. set (tl := textlist_of span_texts).
  assert (tl ≠ []) as Htl.
  { unfold tl, textlist_of. by destruct span_texts. }
  pose proof (sep_positions_last tl Htl) as Hlast.
  pose proof (sep_positions_sorted tl) as Hsorted.
  unfold candidates. fold tl.
  destruct (sep_positions tl) as [|first idx] eqn:Hidx; [done|].
  exists first. split; [done|]. split.
  - intros j val Hj Hval. destruct (separator tl val) eqn:Hsep; [|done].
    assert (j ∈ sep_positions tl) as Hin by (apply elem_of_sep_positions; eauto).
    rewrite Hidx in Hin. apply elem_of_cons in Hin as [->|Hin]; [lia|].
    apply StronglySorted_inv in Hsorted as [_ Hall].
    rewrite Forall_forall in Hall. specialize (Hall _ Hin). lia.
  - rewrite concat_slices_list by done. rewrite Hlast. simpl.
    unfold tl, textlist_of. by rewrite length_fmap.
Qed.

(** X3: the candidates, put end to end, are the fragments from the
    first separator up to the last fragment, which is left out; no
    fragment before [first] is a separator. *)
Theorem candidates_partition span_texts :
  span_texts ≠ [] →
  ∃ first,
    head (sep_positions (textlist_of span_texts)) = Some first ∧
    (∀ j val, j < first → textlist_of span_texts !! j = Some val →
              separator (textlist_of span_texts) val = false) ∧
    concat (candidates span_texts)
    = slice (textlist_of span_texts) first (length span_texts - 1).
Proof. apply candidates_concat. Qed.

Lemma candidates_partition_witness :
  concat (candidates er_page) = slice (textlist_of er_page) 1 (length er_page - 1).
Proof.
  destruct (candidates_partition er_page) as (first & Hfirst & _ & Hconcat).
  - discriminate.
  - injection Hfirst as <-. exact Hconcat.
Defined.

(** X4: every candidate begins with a separator fragment and holds no
    other: the fragments at positions 1 and up of a record are never
    [['']] nor equal to the last fragment of the page. *)
Theorem candidate_shape span_texts i p :
  candidates span_texts !! i = Some p →
  (∃ f, p !! 0 = Some f ∧ separator (textlist_of span_texts) f = true) ∧
  (∀ k f, 0 < k → p !! k = Some f →
          separator (textlist_of span_texts) f = false).
Proof.
  set (tl := textlist_of span_texts).
  rename i into k. intros Hk. unfold candidates in Hk. fold tl in Hk.
  apply slices_list_lookup in Hk as (a & b & Ha & Hb & ->).
  pose proof (sep_positions_sorted tl) as Hsorted.
  assert (a < b) as Hab.
  { eapply (sorted_lookup_lt _ k (S k)); [done|lia|done..]. }
  assert (b < length tl) as Hbn.
  { apply list_elem_of_lookup_2, elem_of_sep_positions in Hb
      as (val & Hval%lookup_lt_Some & _). done. }
  unfold slice. split.
  - apply list_elem_of_lookup_2, elem_of_sep_positions in Ha as (val & Hval & Hsep).
    exists val. split; [|done].
    rewrite lookup_take_lt by lia. rewrite lookup_drop. by rewrite Nat.add_0_r.
  - intros i f Hi Hf. apply lookup_take_Some in Hf as [Hf Hib].
    rewrite lookup_drop in Hf.
    destruct (separator tl f) eqn:Hsep; [|done].
    assert (a + i ∈ sep_positions tl) as [m Hm]%list_elem_of_lookup_1
      by (apply elem_of_sep_positions; eauto).
    destruct (decide (m ≤ k)) as [Hmk|Hmk].
    + destruct (decide (m = k)) as [->|Hne]; [simplify_eq; lia|].
      assert (a + i < a); [|lia].
      eapply (sorted_lookup_lt _ m k); [done|lia|done..].
    + destruct (decide (m = S k)) as [->|Hne]; [simplify_eq; lia|].
      assert (b < a + i); [|lia].
      eapply (sorted_lookup_lt _ (S k) m); [done|lia|done..].
Qed.

Lemma candidate_shape_witness :
  (∃ f, [[""]; ["45 min"]; ["x"]; ["3"; "05"]; ["y"]; ["flag"]] !! 0 = Some f ∧
        separator (textlist_of er_page) f = true) ∧
  (∀ k f, 0 < k →
     [[""]; ["45 min"]; ["x"]; ["3"; "05"]; ["y"]; ["flag"]] !! k = Some f →
     separator (textlist_of er_page) f = false).
Proof. apply (candidate_shape er_page 1). reflexivity. Defined.

Lemma gate_length_concat (l : list (list fragment)) :
  5 * length (filter gate l) ≤ length (concat l).
Proof.
  induction l as [|p l IH]; simpl; [lia|].
  rewrite filter_cons, length_app. destruct (decide (gate p)) as [Hp|_]; simpl; [|lia].
  unfold gate in Hp. lia.
Qed.

(** X5: a page of [n] spans gives at most [(n - 1) / 5] rows. *)
Theorem rows_bound span_texts anchor_texts hospital_names df :
  import_state_info span_texts anchor_texts hospital_names = Return df →
  5 * length (rows df) ≤ length span_texts - 1.
Proof.
  intros Hrun%import_rows_length. rewrite <-Hrun.
  unfold validated. etrans; [apply gate_length_concat|].
  destruct (decide (span_texts = [])) as [->|Hne]; [done|].
  destruct (candidates_concat _ Hne) as (first & _ & _ & ->).
  unfold slice. rewrite length_take. lia.
Qed.

Lemma rows_bound_witness : 5 * 2 ≤ length er_page - 1.
Proof.
  apply (rows_bound er_page [] false (Frame Np.int64 [ints 150 75; ints 45 185] None)).
  reflexivity.
Defined.


Lemma truth_short a : length a ≤ 1 → ∃ b, Np.truth a = Return b.
Proof. destruct a as [|? [|? ?]]; simpl; [eauto..|lia]. Qed.

Lemma is_separator_returns ly val last_ :
  ly = Np.Ragged ∨ length val ≤ 1 → ∃ b, is_separator ly val last_ = Return b.
Proof.
  intros Hly. destruct ly; simpl; [|by eauto].
  destruct Hly as [?|Hlen]; [done|].
  destruct (truth_short ((λ s, bool_decide (s = "")) <$> val)) as [b ->].
  { by rewrite length_fmap. }
  unbind. destruct b; [by eauto|].
  apply truth_short. rewrite length_zip_with. lia.
Qed.

Lemma idx_list_from_returns ly last_ i vals :
  ly = Np.Ragged ∨ Forall (λ f : fragment, length f ≤ 1) vals →
  ∃ idx, idx_list_from ly last_ i vals = Return idx.
Proof.
  revert i. induction vals as [|val vals IH]; intros i Hly; simpl; [by eauto|].
  destruct (is_separator_returns ly val last_) as [b ->].
  { destruct Hly as [?|[? _]%Forall_cons]; auto. }
  destruct (IH (S i)) as [idx ->].
  { destruct Hly as [?|[_ ?]%Forall_cons]; auto. }
  unbind. by eauto.
Qed.

Lemma idx_list_from_Rect_Return last_ i vals idx :
  idx_list_from Np.Rect last_ i vals = Return idx →
  Forall (λ f : fragment, length f ≤ 1) vals.
Proof.
  revert i idx. induction vals as [|val vals IH]; intros i idx; simpl; [by constructor|].
  intros (b & Hb & (rest & Hrest & _)%bind_Return)%bind_Return.
  constructor; [|by eapply IH].
  simpl in Hb. apply bind_Return in Hb as (b1 & H1%truth_Return_length & _).
  by rewrite length_fmap in H1.
Qed.

(** The comprehension has a value exactly on comparable fragments. *)
Lemma idx_list_returns_iff textlist :
  (∃ idx, idx_list textlist = Return idx) ↔ comparable textlist.
Proof.
  unfold idx_list, comparable. split.
  - intros [idx Hidx]. destruct (Np.layout_of textlist); [right|by left].
    by eapply idx_list_from_Rect_Return.
  - intros Hc. apply idx_list_from_returns.
    destruct Hc as [->|?]; auto.
Qed.

Lemma minutes_returns_iff tmp k f :
  tmp !! k = Some f → (∃ z, minutes tmp k = Return z) ↔ readable f.
Proof.
  intros Hk. rewrite (minutes_spec _ _ _ Hk). unfold readable.
  destruct (hours_minutes f), (bare_minutes f); split;
    first [by eauto | by intros [? ?] | by intros [[? ?]|[? ?]]].
Qed.

Lemma validated_readable span_texts p :
  p ∈ validated span_texts →
  ¬ fails p ↔ readable_at p 1 ∧ readable_at p 3.
Proof.
  intros Hp.
  destruct (validated_fragments _ p 1 Hp) as (f1 & Hf1 & Ht1 & _); [lia|].
  destruct (validated_fragments _ p 3 Hp) as (f3 & Hf3 & Ht3 & _); [lia|].
  pose proof (minutes_returns_iff _ _ _ Ht1) as Hr1.
  pose proof (minutes_returns_iff _ _ _ Ht3) as Hr3.
  unfold fails, readable_at, fragment in *. split.
  - intros Hnf. split.
    + exists f1. split; [done|]. apply Hr1.
      destruct (minutes (take 5 p) 1) as [z|e]; [by eauto|]. destruct Hnf. left. eauto.
    + exists f3. split; [done|]. apply Hr3.
      destruct (minutes (take 5 p) 3) as [z|e]; [by eauto|]. destruct Hnf. right. eauto.
  - intros [(g1 & Hg1 & Hread1) (g3 & Hg3 & Hread3)].
    rewrite Hf1 in Hg1. rewrite Hf3 in Hg3. simplify_eq.
    apply Hr1 in Hread1 as [z1 Hz1]. apply Hr3 in Hread3 as [z3 Hz3].
    rewrite Hz1, Hz3. by intros [[? ?]|[? ?]].
Qed.

(** X1: the call returns exactly when the fragments are comparable (the
    spans do not all hold one same number, at least one, of colons) and
    the fragments 1 and 3 of every validated record are readable (as
    hours and minutes or as bare minutes); otherwise it raises. *)
Theorem returns_iff span_texts anchor_texts hospital_names :
  (∃ df, import_state_info span_texts anchor_texts hospital_names = Return df) ↔
  comparable (textlist_of span_texts) ∧
  Forall (λ p, readable_at p 1 ∧ readable_at p 3) (validated span_texts).
Proof.
  split.
  - intros [df Hrun]. split.
    + apply idx_list_returns_iff.
      destruct (import_state_info_cases span_texts anchor_texts hospital_names)
        as [(e & He & _)|?]; [congruence|done].
    + apply Forall_forall. intros p Hp. apply (validated_readable _ _ Hp).
      intros Hfails.
      destruct (import_fails span_texts anchor_texts hospital_names) as [e He].
      { apply Exists_exists. eauto. }
      congruence.
  - intros [[idx Hidx]%idx_list_returns_iff Hall].
    pose proof (import_state_info_loop span_texts anchor_texts hospital_names
                  _ Hidx) as Hrun.
    destruct (parse_loop_returns (validated span_texts) [] []) as [times Ht].
    { apply Forall_forall. intros p Hp. apply (validated_readable _ _ Hp).
      rewrite Forall_forall in Hall. by apply Hall. }
    rewrite Ht in Hrun. destruct Hrun as (vs & dt & a & _ & _ & ->). eauto.
Qed.

Lemma take_idx_Return {A} (a : list A) idx l :
  Np.take_idx a idx = Return l → Forall2 (λ i x, a !! i = Some x) idx l.
Proof.
  revert l. induction idx as [|i idx IH]; intros l; simpl.
  - intros [= <-]. constructor.
  - intros (x & Hx & (xs & Hxs & [= <-])%bind_Return)%bind_Return.
    constructor; [|by apply IH].
    unfold getitem in Hx. by destruct (a !! i); simplify_eq.
Qed.

Lemma length_retained_idx span_texts :
  length (retained_idx span_texts) = length (validated span_texts).
Proof.
  pose proof (pruned_slices_list_spec (candidates span_texts)) as H.
  apply take_idx_Return, Forall2_length in H. done.
Qed.

(** X6: a page without a validated record, the empty page among them,
    gives the empty frame with its default index, whether labels are
    asked for or not: [min()] of no index raises and is swallowed. *)
Theorem no_record_empty_frame span_texts anchor_texts hospital_names :
  comparable (textlist_of span_texts) →
  validated span_texts = [] →
  import_state_info span_texts anchor_texts hospital_names
  = Return (Frame Np.float64 [] None).
Proof.
  intros [idx Hidx]%idx_list_returns_iff Hnone.
  rewrite (import_state_info_validated _ _ _ _ Hidx), Hnone. simpl.
  unfold labeled. destruct hospital_names; [|done].
  assert (retained_idx span_texts = []) as ->; [|done].
  apply length_zero_iff_nil. by rewrite length_retained_idx, Hnone.
Qed.

Lemma no_record_empty_frame_witness :
  import_state_info ["a"; ""; "b"; "c"; "d"; ""; ""] er_anchors true
  = Return (Frame Np.float64 [] None).
Proof.
  apply no_record_empty_frame.
  - right. repeat constructor.
  - vm_compute. reflexivity.
Defined.

(** X2: no exception but ValueError leaves the call: the fragments of a
    page are never empty, so every IndexError of a field is met inside
    the [try] and handled there. *)
Theorem only_ValueError_escapes span_texts anchor_texts hospital_names e :
  import_state_info span_texts anchor_texts hospital_names = Raise e →
  e = ValueError.
Proof. apply import_Raise. Qed.

Lemma only_ValueError_escapes_witness : ValueError = ValueError.
Proof.
  apply (only_ValueError_escapes
           [""; "2:30"; "x"; "1:15"; "y"; ""; "n/a"; "x"; "3:05"; "y"; ""]
           [] true ValueError).
  reflexivity.
Defined.

(** X10: label attachment neither causes nor hides an exception:
    whether the call raises, and what, depends on the spans alone. *)
Theorem raise_independent_of_labels span_texts anchor_texts anchor_texts'
    hospital_names hospital_names' e :
  import_state_info span_texts anchor_texts hospital_names = Raise e ↔
  import_state_info span_texts anchor_texts' hospital_names' = Raise e.
Proof.
  destruct (idx_list (textlist_of span_texts)) as [idx|e'] eqn:Hidx.
  - rewrite !(import_state_info_validated _ _ _ _ Hidx). unbind.
    destruct (parse_loop _ [] []) as [times|e']; [|done].
    by destruct (two_column_array _ _).
  - destruct (import_state_info_cases span_texts anchor_texts hospital_names)
      as [(e1 & -> & H1)|[idx H1]]; [|congruence].
    destruct (import_state_info_cases span_texts anchor_texts' hospital_names')
      as [(e2 & -> & H2)|[idx H2]]; [|congruence].
    rewrite Hidx in H1, H2. by simplify_eq.
Qed.

Lemma str_split_single sep s t : str_split sep s = [t] → t = s.
Proof.
  revert t. induction s as [|c s IH]; intros t; simpl; [by intros [= <-]|].
  destruct (Ascii.eqb c sep).
  - intros [= <- Hs]. by apply str_split_nonempty in Hs.
  - destruct (str_split sep s) as [|piece pieces] eqn:Hs.
    { by apply str_split_nonempty in Hs. }
    intros [= <- ->]. by rewrite (IH piece).
Qed.

Lemma min_sorted idx m :
  StronglySorted lt idx → Np.min_ idx = Return m → head idx = Some m.
Proof.
  destruct idx as [|i idx]; simpl; [done|].
  intros [_ Hall]%StronglySorted_inv [= <-]. f_equal.
  induction idx as [|j idx IH]; [done|]. cbn [foldr].
  apply Forall_cons in Hall as [Hij Hall]. rewrite <-IH by done. lia.
Qed.

Lemma retained_idx_sorted span_texts : StronglySorted lt (retained_idx span_texts).
Proof. apply where_from_sorted. Qed.

Lemma lookup_slice_to_end {A} (l : list A) i j k x :
  slice_to_end l i j !! k = Some x ↔ l !! (i + k) = Some x ∧ i + k < length l - j.
Proof.
  unfold slice_to_end, slice. rewrite lookup_take_Some, lookup_drop.
  split; intros [Hx Hk]; (split; [done|]).
  - lia.
  - apply lookup_lt_Some in Hx. lia.
Qed.

Lemma length_concat_uniform {A} (l : list (list A)) k :
  Forall (λ f, length f = k) l → length (concat l) = k * length l.
Proof.
  induction 1 as [|f l Hf _ IH]; simpl; [lia|]. rewrite length_app, IH, Hf. lia.
Qed.

Lemma concat_singletons {A} (l : list (list A)) j f :
  Forall (λ f, length f = 1) l → l !! j = Some f →
  ∃ x, f = [x] ∧ concat l !! j = Some x.
Proof.
  intros Hall. revert j. induction Hall as [|g l Hg _ IH]; intros j Hj.
  - by rewrite lookup_nil in Hj.
  - destruct g as [|x [|? ?]]; simplify_eq/=. destruct j as [|j]; simplify_eq/=.
    + by exists x.
    + by apply IH.
Qed.

Lemma retained_candidate span_texts j i :
  retained_idx span_texts !! j = Some i →
  ∃ p, candidates span_texts !! i = Some p ∧ validated span_texts !! j = Some p.
Proof.
  intros Hi.
  pose proof (pruned_slices_list_spec (candidates span_texts)) as H.
  apply take_idx_Return in H.
  destruct (Forall2_lookup_l _ _ _ _ _ H Hi) as (p & Hp & Hc). eauto.
Qed.

(** X7: the labels of a labeled frame.  There is one label for each
    row, and row [j], made from candidate number [i], is named after
    anchor number [9 + (i - first)], where [first] is the number of the
    first retained candidate: the first row after anchor 9, the others
    as many anchors further as candidates lie between, discarded ones
    counted.  The first nine and the last twelve anchors name no row.
    The label is the text of the anchor when no anchor of the page has
    a colon, and the list of its pieces when the array of names is
    ragged. *)
Theorem labels_provenance span_texts anchor_texts df labels :
  import_state_info span_texts anchor_texts true = Return df →
  index df = Some labels →
  length labels = length (rows df) ∧
  ∃ first,
    head (retained_idx span_texts) = Some first ∧
    ∀ j i, retained_idx span_texts !! j = Some i →
      (∃ p, candidates span_texts !! i = Some p ∧
            validated span_texts !! j = Some p) ∧
      ∃ a, anchor_texts !! (9 + (i - first)) = Some a ∧
           9 + (i - first) < length anchor_texts - 12 ∧
           labels !! j
           = Some (anchor_label (Np.layout_of (str_split ":" <$> anchor_texts)) a).
Proof.
  intros Hrun Hindex.
  pose proof (import_rows_length _ _ _ _ Hrun) as Hrows.
  rewrite <-length_retained_idx in Hrows.
  destruct (import_state_info_cases span_texts anchor_texts true)
    as [(e & He & _)|[idx Hidx]]; [congruence|].
  rewrite (import_state_info_validated _ _ _ _ Hidx) in Hrun.
  apply bind_Return in Hrun as (times & _ & Hrun).
  apply bind_Return in Hrun as (arr & _ & Hrun).
  unfold labeled in Hrun.
  destruct (hospital_labels _ _ _) as [labels'|] eqn:Hlab; simplify_eq/=.
  unfold hospital_labels, align_labels in Hlab.
  set (namelist := str_split ":" <$> anchor_texts) in *.
  apply bind_Return in Hlab as (m & Hm & Hlab).
  apply bind_Return in Hlab as (sel & Hsel & Hlab). simpl in Hlab.
  destruct (length (flatten _ sel) =? _) eqn:Hlen; simplify_eq/=.
  apply Nat.eqb_eq in Hlen. split; [done|].
  apply min_sorted in Hm; [|apply retained_idx_sorted].
  exists m. split; [done|]. intros j i Hi.
  split; [by apply retained_candidate|].
  apply take_idx_Return in Hsel.
  assert (∃ f, sel !! j = Some f ∧
               namelist !! (9 + (i - m)) = Some f ∧
               9 + (i - m) < length namelist - 12) as (f & Hf & Hname & Hwin).
  { destruct (Forall2_lookup_l _ _ _ j (i - m) Hsel) as (f & Hf & Hw).
    { by rewrite list_lookup_fmap, Hi. }
    apply lookup_slice_to_end in Hw as [? ?]. eauto. }
  unfold namelist in Hname, Hwin. rewrite length_fmap in Hwin.
  rewrite list_lookup_fmap in Hname.
  destruct (anchor_texts !! (9 + (i - m))) as [a|] eqn:Ha; simplify_eq/=.
  exists a. split; [done|]. split; [done|].
  fold namelist. unfold flatten, anchor_label in *.
  destruct (Np.layout_of namelist) eqn:Hly.
  - assert (Forall (λ f, length f = 1) sel) as Hone.
    { assert (Forall (λ f, length f = length (str_split ":" a)) sel) as Hk.
      { apply Forall_forall. intros g [k Hg]%list_elem_of_lookup_1.
        destruct (Forall2_lookup_r _ _ _ _ _ Hsel Hg) as (i' & _ & Hw).
        apply lookup_slice_to_end in Hw as [Hw _].
        eapply layout_of_Rect; [done|by eapply list_elem_of_lookup_2|].
        unfold namelist. apply list_elem_of_fmap. exists a. split; [done|].
        by eapply list_elem_of_lookup_2. }
      pose proof (length_concat_uniform _ _ Hk) as Hcat.
      rewrite length_fmap in Hlen. rewrite Hlen in Hcat.
      apply lookup_lt_Some in Hf.
      pose proof (Forall2_length _ _ _ Hsel) as Hsl. rewrite length_fmap in Hsl.
      unfold fragment in *.
      assert (length (str_split ":" a) * length sel = 1 * length sel) as Hmul by lia.
      apply Nat.mul_cancel_r in Hmul; [|lia]. by rewrite <-Hmul. }
    destruct (concat_singletons _ _ _ Hone Hf) as (x & Hx & Hcat).
    rewrite list_lookup_fmap, Hcat. simpl.
    by rewrite (str_split_single _ _ _ Hx).
  - unfold fragment in *. by rewrite list_lookup_fmap, Hf.
Qed.

Lemma labels_provenance_witness :
  length [Name "St. Mary"; Name "Mercy"] = length [ints 150 75; ints 45 185].
Proof.
  apply (labels_provenance er_page er_anchors
           (Frame Np.int64 [ints 150 75; ints 45 185]
              (Some [Name "St. Mary"; Name "Mercy"]))
           [Name "St. Mary"; Name "Mercy"]); reflexivity.
Defined.

(** X9: [s.split(sep)] has one piece more than [s] has separators, no
    piece holds a separator, and the pieces have all the other
    characters: a fragment has as many elements as its span has colons,
    and one more, and none of them holds a colon. *)
Theorem str_split_pieces sep s :
  length (str_split sep s) = S (count_char sep s) ∧
  Forall (λ piece, count_char sep piece = 0) (str_split sep s) ∧
  sum_list (String.length <$> str_split sep s) + count_char sep s
  = String.length s.
Proof.
  induction s as [|c s (IHlen & IHfree & IHsum)]; simpl.
  - split; [done|]. split; [|done]. by repeat constructor.
  - destruct (Ascii.eqb c sep) eqn:Hc; simpl.
    + split; [by rewrite IHlen|]. split; [by constructor|].
      unfold fmap in *. lia.
    + destruct (str_split sep s) as [|piece pieces]; [done|]. simpl in *.
      split; [done|]. apply Forall_cons in IHfree as [Hpiece Hfree].
      split; [|unfold fmap in *; simpl in *; lia].
      constructor; [|done]. simpl. by rewrite Hc.
Qed.

(** ** Spans before the first separator *)

Lemma where_from_app i m1 m2 :
  Np.where_from i (m1 ++ m2)
  = Np.where_from i m1 ++ Np.where_from (i + length m1) m2.
Proof.
  revert i. induction m1 as [|b m1 IH]; intros i; simpl.
  - by rewrite Nat.add_0_r.
  - rewrite IH. replace (S i + length m1) with (i + S (length m1)) by lia.
    by destruct b.
Qed.

Lemma where_from_all_false i (mask : list bool) :
  Forall (λ b, b = false) mask → Np.where_from i mask = [].
Proof.
  intros Hall. revert i. induction Hall as [|b mask -> _ IH]; intros i; simpl; [done|].
  apply IH.
Qed.

Lemma where_from_shift n i mask :
  Np.where_from (n + i) mask = Nat.add n <$> Np.where_from i mask.
Proof.
  revert i. induction mask as [|b mask IH]; intros i; simpl; [done|].
  replace (S (n + i)) with (n + S i) by lia. rewrite IH. by destruct b.
Qed.

Lemma slice_shift {A} (pre l : list A) a b :
  slice (pre ++ l) (length pre + a) (length pre + b) = slice l a b.
Proof.
  unfold slice. rewrite drop_app_add. f_equal. lia.
Qed.

Lemma slices_list_shift (pre textlist : list fragment) idx :
  slices_list (pre ++ textlist) (Nat.add (length pre) <$> idx)
  = slices_list textlist idx.
Proof.
  induction idx as [|a [|b idx] IH]; [done..|].
  rewrite !fmap_cons, !slices_list_cons, slice_shift. f_equal. exact IH.
Qed.

Lemma separator_app (pre textlist : list fragment) val :
  textlist ≠ [] → separator (pre ++ textlist) val = separator textlist val.
Proof.
  intros Hne. unfold separator. rewrite last_app.
  destruct (last textlist) eqn:Hlast; [done|]. by apply last_None in Hlast.
Qed.

Lemma candidates_app pre span_texts :
  span_texts ≠ [] →
  Forall (λ s, separator (textlist_of span_texts) (str_split ":" s) = false) pre →
  candidates (pre ++ span_texts) = candidates span_texts.
Proof.
  intros Hne Hpre. unfold candidates, sep_positions, Np.where_, textlist_of.
  rewrite !fmap_app.
  set (ptl := str_split ":" <$> pre). set (tl := str_split ":" <$> span_texts).
  assert (tl ≠ []) as Htl by (unfold tl; by destruct span_texts).
  rewrite where_from_app, where_from_all_false.
  - simpl. rewrite length_fmap.
    rewrite <-(Nat.add_0_r (length ptl)) at 1. rewrite where_from_shift.
    rewrite (list_fmap_ext _ (separator tl) tl) by (intros; by apply separator_app).
    apply slices_list_shift.
  - apply Forall_fmap, Forall_fmap, Forall_forall. intros s Hs. simpl.
    rewrite separator_app by done. rewrite Forall_forall in Hpre. by apply Hpre.
Qed.

(** X8: spans before the first separator do not count: with or without
    them the call gives the same result, frame or exception, as long as
    the fragments stay comparable. *)
Theorem leading_spans_ignored pre span_texts anchor_texts hospital_names :
  span_texts ≠ [] →
  Forall (λ s, separator (textlist_of span_texts) (str_split ":" s) = false) pre →
  comparable (textlist_of (pre ++ span_texts)) →
  comparable (textlist_of span_texts) →
  import_state_info (pre ++ span_texts) anchor_texts hospital_names
  = import_state_info span_texts anchor_texts hospital_names.
Proof.
  intros Hne Hpre [idx1 H1]%idx_list_returns_iff [idx2 H2]%idx_list_returns_iff.
  rewrite (import_state_info_validated _ _ _ _ H1).
  rewrite (import_state_info_validated _ _ _ _ H2).
  unfold validated, retained_idx. by rewrite candidates_app.
Qed.

Lemma leading_spans_ignored_witness :
  import_state_info (["Find a hospital"; "junk"] ++ tail er_page) er_anchors true
  = import_state_info (tail er_page) er_anchors true.
Proof.
  apply leading_spans_ignored.
  - discriminate.
  - repeat constructor.
  - by left.
  - by left.
Defined.

(** ** The dtype of the frame *)

Lemma promote_types_int64 a b :
  Np.promote_types a b = Np.int64 → a = Np.int64 ∧ b = Np.int64.
Proof. by destruct a, b. Qed.

Lemma int_dtype_int64 z : Np.int_dtype z = Np.int64 → in_int64 z = true.
Proof.
  unfold Np.int_dtype, in_int64.
  destruct (_ && _)%Z; [done|]. by destruct (_ && _)%Z.
Qed.

Lemma array_dtype_int64_inv l :
  Np.array_dtype l = Np.int64 → l ≠ [] ∧ forallb in_int64 l = true.
Proof.
  destruct l as [|z l]; [done|]. simpl. intros Hl. split; [done|].
  assert (∀ d, foldl (λ dt x, Np.promote_types dt (Np.int_dtype x)) d l
               = Np.int64 →
               d = Np.int64 ∧ forallb in_int64 l = true) as Hfold.
  { clear. induction l as [|x l IH]; intros d; simpl; [done|].
    intros [[-> Hx]%promote_types_int64 ->]%IH.
    by rewrite (int_dtype_int64 _ Hx). }
  destruct (Hfold _ Hl) as [Hz ->]. by rewrite (int_dtype_int64 _ Hz).
Qed.

Lemma int64_fields_inv ps vs :
  Forall2 fields_of ps vs →
  forallb in_int64 vs.*1 = true → forallb in_int64 vs.*2 = true →
  forallb
    (λ p, forallb
            (λ k, match minutes (take 5 p) k with
                  | Return v => in_int64 v
                  | Raise _ => true
                  end)
            [1; 3]) ps = true.
Proof.
  induction 1 as [|p v ps vs [H1 H3] _ IH]; [done|].
  rewrite !fmap_cons. cbn [forallb].
  intros [Hv1 Hvs1]%andb_prop [Hv3 Hvs3]%andb_prop.
  rewrite H1, H3, Hv1, Hv3. simpl. by apply IH.
Qed.

(** X11: the frame is of dtype int64 exactly when it has a row and
    every minute count of the validated records is in the range of
    int64, and then its fields are the counts themselves; a frame without
    row is of dtype float64, as [np.array([])] is. *)
Theorem int64_frame_iff span_texts anchor_texts hospital_names df :
  import_state_info span_texts anchor_texts hospital_names = Return df →
  (dtypes df = Np.int64 ↔ rows df ≠ [] ∧ int64_page span_texts = true) ∧
  (dtypes df = Np.int64 →
   Forall (λ r, ∃ v1 v3, r = ints v1 v3 ∧ in_int64 v1 = true ∧
                         in_int64 v3 = true) (rows df)) ∧
  (rows df = [] → dtypes df = Np.float64).
Proof.
  intros Hrun.
  destruct (import_rows_fields _ _ _ _ Hrun) as [Hrows Hint].
  destruct (import_rows _ _ _ _ Hrun) as (vs & a & Hvs & Ha & Heq).
  assert (dtypes df = Np.int64 →
          rows df ≠ [] ∧ int64_page span_texts = true) as Hinv.
  { intros Hdt. unfold two_column_array, Np.concatenate, Np.array in Ha.
    simpl in Ha. destruct (_ =? _); [|done]. injection Ha as Hd Ha.
    rewrite Hdt in Hd.
    apply promote_types_int64 in Hd as [H1 H3].
    apply array_dtype_int64_inv in H1 as [Hne H1].
    apply array_dtype_int64_inv in H3 as [_ H3].
    split; [|by eapply int64_fields_inv].
    rewrite Heq, <-Ha. by destruct vs. }
  split; [split; [done|by intros [? ?]; apply Hint]|]. split.
  - intros [_ Hpage]%Hinv. apply Forall_forall.
    intros r [i Hr]%list_elem_of_lookup_1.
    destruct (Forall2_lookup_r _ _ _ _ _ Hrows Hr)
      as (p & Hp & v1 & v3 & H1 & H3 & _ & _ & Hr').
    exists v1, v3. split; [by apply Hr'|].
    unfold int64_page in Hpage. rewrite forallb_forall in Hpage.
    apply list_elem_of_lookup_2, list_elem_of_In, Hpage in Hp.
    simpl in Hp. rewrite H1, H3 in Hp.
    by apply andb_prop in Hp as [? [? _]%andb_prop].
  - intros Hnil. rewrite Hnil in Heq. symmetry in Heq.
    apply fmap_nil_inv in Heq as ->.
    destruct (two_column_array_fmap vs) as (dt & a' & Ha' & Hst & _).
    rewrite Ha in Ha'. injection Ha' as <- <-.
    apply Forall2_nil_inv_r in Hst as ->. by injection Ha.
Qed.

Lemma int64_frame_iff_witness :
  (Np.int64 = Np.int64 ↔ [ints 150 75; ints 45 185] ≠ [] ∧
                         int64_page er_page = true) ∧
  (Np.float64 = Np.int64 ↔
   [Row (Np.Float 9223372036854775808) (Np.Float 75)] ≠ [] ∧
   int64_page long_wait_page = true).
Proof.
  split.
  - apply (int64_frame_iff er_page [] false
             (Frame Np.int64 [ints 150 75; ints 45 185] None)).
    vm_compute. reflexivity.
  - apply (int64_frame_iff long_wait_page [] false
             (Frame Np.float64
                [Row (Np.Float 9223372036854775808) (Np.Float 75)] None)).
    vm_compute. reflexivity.
Defined.
